(** * DocumentLayerSource: the documents-layer configuration panel

    A shallow embedding of
    [src/public/components/layer_config/documents_config/document_layer_source.tsx]
    and the properties of its handlers and effects.

    The component is a React function component.  Its embedding follows the
    way React runs it:

    - a _render_ closes over the props and the hook state of that render
      ([Render]); handlers and effects created by a render read those values;
    - objects live in a heap ([World]'s [heap]) and are passed by reference,
      so that "a fresh object" and "the received object is not written" are
      statements about locations;
    - state setters write the value the next render will see ([pending]);
    - [useRef] holds one mutable table for the life of the component
      ([memorizedForm]);
    - the callbacks received through the props are opaque functions of the
      parent: a call to one of them is recorded in [calls]. *)

From Stdlib Require Import QArith Ascii String.
From stdpp Require Import base option list gmap strings sorting.
From Stdlib Require Import Lia Lqa.

Set Implicit Arguments.
Local Open Scope string_scope.
Local Open Scope list_scope.

(** ** JavaScript values used by the component *)

(** A JavaScript number is NaN, an infinity or a finite value.  Finite values
    are kept as exact rationals: the comparisons of the language agree with
    the comparison of the exact values, and the constants the component
    compares with (1 and 10000) are exact. *)
Inductive number : Type :=
| NaN
| NegInfinity
| Finite (q : Q)
| PosInfinity.

(** [x < y] of the language: false as soon as one side is NaN. *)
Definition js_lt (x y : number) : bool :=
  match x, y with
  | NaN, _ | _, NaN => false
  | Finite a, Finite b => negb (Qle_bool b a)
  | NegInfinity, NegInfinity => false
  | NegInfinity, _ => true
  | _, NegInfinity => false
  | PosInfinity, _ => false
  | Finite _, PosInfinity => true
  end.

(** [x > y] is [y < x] with the operands evaluated in source order. *)
Definition js_gt (x y : number) : bool := js_lt y x.

Definition of_Z (z : Z) : number := Finite (inject_Z z).

(** Truthiness of a string: every string but the empty one. *)
Definition truthy (s : string) : bool :=
  match s with
  | EmptyString => false
  | String _ _ => true
  end.

(** [a || b] on strings. *)
Definition or_else (a b : string) : string := if truthy a then a else b.

(** [xs.indexOf(x)]: the first position of [x], or -1. *)
Fixpoint indexOf_from (i : Z) (x : string) (xs : list string) : Z :=
  match xs with
  | [] => (-1)%Z
  | y :: ys => if String.eqb y x then i else indexOf_from (i + 1)%Z x ys
  end.

Definition indexOf (xs : list string) (x : string) : Z := indexOf_from 0%Z x xs.

(** *** [parseInt(value, 10)]

    Leading white space is skipped, one sign is read, then the longest run of
    decimal digits; no digit at all gives NaN.  Characters are the one-byte
    code units of [string]; the integer is kept exact.  An engine returns a
    double: the integer itself up to 2^53 in magnitude, a nearby double
    above, an infinity beyond the largest double; none of this changes a
    comparison with 1 or 10000, and properties of the value written are
    stated for integers up to 2^53. *)
Definition is_white_space (c : ascii) : bool :=
  let n := nat_of_ascii c in
  (Nat.eqb n 9 || Nat.eqb n 10 || Nat.eqb n 11 || Nat.eqb n 12 ||
   Nat.eqb n 13 || Nat.eqb n 32 || Nat.eqb n 160)%bool.

Fixpoint trim_start (s : string) : string :=
  match s with
  | String c s' => if is_white_space c then trim_start s' else s
  | EmptyString => EmptyString
  end.

Definition digit_value (c : ascii) : option Z :=
  let n := nat_of_ascii c in
  if (Nat.leb 48 n && Nat.leb n 57)%bool then Some (Z.of_nat (n - 48)) else None.

(** The digits read so far are [acc]; [None] while no digit was read. *)
Fixpoint parse_digits (s : string) (acc : option Z) : option Z :=
  match s with
  | String c s' =>
      match digit_value c with
      | Some d => parse_digits s' (Some (10 * default 0%Z acc + d)%Z)
      | None => acc
      end
  | EmptyString => acc
  end.

Definition parseInt (value : string) : number :=
  let s := trim_start value in
  let '(sign, digits) :=
    match s with
    | String "-" rest => ((-1)%Z, rest)
    | String "+" rest => (1%Z, rest)
    | _ => (1%Z, s)
    end in
  match parse_digits digits None with
  | Some m => of_Z (sign * m)
  | None => NaN
  end.

(** ** Data model *)

(** A field of an index pattern.  [displayName] is a property of its own
    (the host shortens dotted names in it); the component reads both. *)
Module IndexPatternField.
Record t : Type := mk {
    name : string;
    displayName : string;
    type : string;
  }.
End IndexPatternField.

Module IndexPattern.
Record t : Type := mk {
    id : option string;
    title : string;
    fields : list IndexPatternField.t;
  }.
End IndexPattern.

(** A reference to an object of the heap. *)
Definition loc : Type := nat.

(** Modelled from the spec: the declaration of [DocumentLayerSpecification]
    (model/mapLayerType) is not part of the sources; its shape is the one of
    the data model, [{ id, source: { ... } }].  [filters] and [tooltipFields]
    may be absent, as the guards [?? []] and [?.length] of the component
    allow.  The type of a filter belongs to the host and stays a parameter. *)
Module Source.
Record t (Filter : Type) : Type := mk {
    indexPatternId : string;
    indexPatternRefName : string;
    geoFieldName : string;
    geoFieldType : string;
    documentRequestNumber : number;
    filters : option (list Filter);
    tooltipFields : option (list string);
    showTooltips : bool;
    useGeoBoundingBoxFilter : bool;
  }.

Section Update.
Context {Filter : Type}.
Implicit Type s : t Filter.

    (** [{ ...s, field: v }], one definition per field. *)
Definition set_indexPatternId (v : string) s : t Filter :=
      mk v (indexPatternRefName s) (geoFieldName s) (geoFieldType s)
         (documentRequestNumber s) (filters s) (tooltipFields s)
         (showTooltips s) (useGeoBoundingBoxFilter s).
Definition set_indexPatternRefName (v : string) s : t Filter :=
      mk (indexPatternId s) v (geoFieldName s) (geoFieldType s)
         (documentRequestNumber s) (filters s) (tooltipFields s)
         (showTooltips s) (useGeoBoundingBoxFilter s).
Definition set_geoFieldName (v : string) s : t Filter :=
      mk (indexPatternId s) (indexPatternRefName s) v (geoFieldType s)
         (documentRequestNumber s) (filters s) (tooltipFields s)
         (showTooltips s) (useGeoBoundingBoxFilter s).
Definition set_geoFieldType (v : string) s : t Filter :=
      mk (indexPatternId s) (indexPatternRefName s) (geoFieldName s) v
         (documentRequestNumber s) (filters s) (tooltipFields s)
         (showTooltips s) (useGeoBoundingBoxFilter s).
Definition set_documentRequestNumber (v : number) s : t Filter :=
      mk (indexPatternId s) (indexPatternRefName s) (geoFieldName s)
         (geoFieldType s) v (filters s) (tooltipFields s)
         (showTooltips s) (useGeoBoundingBoxFilter s).
Definition set_filters (v : option (list Filter)) s : t Filter :=
      mk (indexPatternId s) (indexPatternRefName s) (geoFieldName s)
         (geoFieldType s) (documentRequestNumber s) v (tooltipFields s)
         (showTooltips s) (useGeoBoundingBoxFilter s).
Definition set_tooltipFields (v : option (list string)) s : t Filter :=
      mk (indexPatternId s) (indexPatternRefName s) (geoFieldName s)
         (geoFieldType s) (documentRequestNumber s) (filters s) v
         (showTooltips s) (useGeoBoundingBoxFilter s).
Definition set_showTooltips (v : bool) s : t Filter :=
      mk (indexPatternId s) (indexPatternRefName s) (geoFieldName s)
         (geoFieldType s) (documentRequestNumber s) (filters s)
         (tooltipFields s) v (useGeoBoundingBoxFilter s).
Definition set_useGeoBoundingBoxFilter (v : bool) s : t Filter :=
      mk (indexPatternId s) (indexPatternRefName s) (geoFieldName s)
         (geoFieldType s) (documentRequestNumber s) (filters s)
         (tooltipFields s) (showTooltips s) v.
End Update.

  (** The properties of a source object, to speak of "every other field". *)
Inductive key : Type :=
  | IndexPatternId | IndexPatternRefName | GeoFieldName | GeoFieldType
  | DocumentRequestNumber | Filters | TooltipFields | ShowTooltips
  | UseGeoBoundingBoxFilter.

Definition agree {Filter : Type} (k : key) (s s' : t Filter) : Prop :=
    match k with
    | IndexPatternId => indexPatternId s = indexPatternId s'
    | IndexPatternRefName => indexPatternRefName s = indexPatternRefName s'
    | GeoFieldName => geoFieldName s = geoFieldName s'
    | GeoFieldType => geoFieldType s = geoFieldType s'
    | DocumentRequestNumber => documentRequestNumber s = documentRequestNumber s'
    | Filters => filters s = filters s'
    | TooltipFields => tooltipFields s = tooltipFields s'
    | ShowTooltips => showTooltips s = showTooltips s'
    | UseGeoBoundingBoxFilter =>
        useGeoBoundingBoxFilter s = useGeoBoundingBoxFilter s'
    end.
End Source.

(** The configuration object: [source] is a reference to the source object. *)
Module Layer.
Record t : Type := mk {
    id : string;
    source : loc;
  }.
End Layer.

(** An entry of the [MemorizedForm] table. *)
Module Memo.
Record t (Filter : Type) : Type := mk {
    filters : option (list Filter);
    geoField : option IndexPatternField.t;
  }.
End Memo.

(** The state hooks of the component. *)
Module Hooks.
Record t : Type := mk {
    indexPattern : option IndexPattern.t;
    hasInvalidRequestNumber : bool;
    showTooltips : bool;
  }.

Definition set_indexPattern (v : option IndexPattern.t) (h : t) : t :=
    mk v (hasInvalidRequestNumber h) (showTooltips h).
Definition set_hasInvalidRequestNumber (v : bool) (h : t) : t :=
    mk (indexPattern h) v (showTooltips h).
Definition set_showTooltips (v : bool) (h : t) : t :=
    mk (indexPattern h) (hasInvalidRequestNumber h) v.
End Hooks.

(** An option of a combo box, and a labelled group of options. *)
Module ComboOption.
Record t : Type := mk { label : string }.
End ComboOption.

Module OptionGroup.
Record t : Type := mk {
  label : string;
  options : list ComboOption.t;
}.
End OptionGroup.

(** The props the component passes to a checkbox. *)
Module Checkbox.
Record t : Type := mk {
  id : string;
  disabled : bool;
  checked : bool;
}.
End Checkbox.

(** A call of one of the callbacks of the props. *)
Inductive call : Type :=
| setSelectedLayerConfig (config : loc)
| setIsUpdateDisabled (disabled : bool).

(** ** The component *)

Section DocumentLayerSource.
Context {Filter : Type}.

(** An object of the heap: a configuration or the source object of one.
    Arrays are kept by value inside the object that holds them: no path of
    the component writes into an array it did not create. *)
Inductive object : Type :=
| LayerObject (config : Layer.t)
| SourceObject (source : Source.t Filter).

(** What a render closes over: the props and the values of the state hooks.
    The two callbacks of the props are the constructors of [call]. *)
Record Render : Type := {
  selectedLayerConfig : loc;
  state : Hooks.t;
}.

(** What handlers and effects act on. *)
Record World : Type := {
  heap : list object;
  memorizedForm : gmap string (Memo.t Filter);
  pending : Hooks.t;
  calls : list call;
}.

Definition set_heap (v : list object) (w : World) : World :=
  Build_World v (memorizedForm w) (pending w) (calls w).
Definition set_memorizedForm (v : gmap string (Memo.t Filter)) (w : World) : World :=
  Build_World (heap w) v (pending w) (calls w).
Definition set_pending (v : Hooks.t) (w : World) : World :=
  Build_World (heap w) (memorizedForm w) v (calls w).
Definition set_calls (v : list call) (w : World) : World :=
  Build_World (heap w) (memorizedForm w) (pending w) v.

(** *** Computations: state passing, [None] for a TypeError
    (a property read through a reference that holds no such object). *)
Definition M (A : Type) : Type := World -> option (A * World).

Definition ret {A} (a : A) : M A := fun w => Some (a, w).

Definition bind {A B} (m : M A) (k : A -> M B) : M B :=
  fun w => match m w with
           | Some (a, w') => k a w'
           | None => None
           end.

Notation "'let!' x ':=' m 'in' k" := (bind m (fun x => k))
  (at level 10, x name, m at level 100, k at level 200).

(** Reading a configuration through its reference. *)
Definition deref_layer (l : loc) : M Layer.t :=
  fun w => match heap w !! l with
           | Some (LayerObject c) => Some (c, w)
           | _ => None
           end.

Definition deref_source (l : loc) : M (Source.t Filter) :=
  fun w => match heap w !! l with
           | Some (SourceObject s) => Some (s, w)
           | _ => None
           end.

(** An object literal: a new object at the next free location. *)
Definition new (o : object) : M loc :=
  fun w => Some (length (heap w), set_heap (heap w ++ [o]) w).

(** [source.field = v] on the source object at [l]. *)
Definition assign (l : loc) (f : Source.t Filter -> Source.t Filter) : M unit :=
  fun w => match heap w !! l with
           | Some (SourceObject s) =>
               Some (tt, set_heap (<[l := SourceObject (f s)]> (heap w)) w)
           | _ => None
           end.

(** Calling a callback of the props. *)
Definition invoke (c : call) : M unit :=
  fun w => Some (tt, set_calls (calls w ++ [c]) w).

Definition read_memorizedForm : M (gmap string (Memo.t Filter)) :=
  fun w => Some (memorizedForm w, w).

Definition write_memorizedForm (k : string) (v : Memo.t Filter) : M unit :=
  fun w => Some (tt, set_memorizedForm (<[k := v]> (memorizedForm w)) w).

Definition setIndexPattern (v : option IndexPattern.t) : M unit :=
  fun w => Some (tt, set_pending (Hooks.set_indexPattern v (pending w)) w).
Definition setHasInvalidRequestNumber (v : bool) : M unit :=
  fun w => Some (tt, set_pending (Hooks.set_hasInvalidRequestNumber v (pending w)) w).
Definition setShowTooltips (v : bool) : M unit :=
  fun w => Some (tt, set_pending (Hooks.set_showTooltips v (pending w)) w).

(** The configuration a reference stands for: its id and its source. *)
Definition config_at (w : World) (l : loc) : option (string * Source.t Filter) :=
  match heap w !! l with
  | Some (LayerObject c) =>
      match heap w !! Layer.source c with
      | Some (SourceObject s) => Some (Layer.id c, s)
      | _ => None
      end
  | _ => None
  end.

(** *** Derived values (the two [useMemo]) *)

Definition acceptedFieldTypes : list string := ["geo_point"; "geo_shape"].

Definition geoFields (indexPattern : option IndexPattern.t)
  : option (list IndexPatternField.t) :=
  (fun p =>
     List.filter
       (fun field =>
          negb (Z.eqb (indexOf acceptedFieldTypes (IndexPatternField.type field)) (-1)))
       (IndexPattern.fields p)) <$> indexPattern.

Definition find_field (geoFieldName : string)
    (fields : option (list IndexPatternField.t)) : option IndexPatternField.t :=
  fields ≫= List.find (fun field => String.eqb (IndexPatternField.name field) geoFieldName).

Definition selectedField (r : Render) : M (option IndexPatternField.t) :=
  let! cfg := deref_layer (selectedLayerConfig r) in
  let! source := deref_source (Layer.source cfg) in
  ret (find_field (Source.geoFieldName source)
         (geoFields (Hooks.indexPattern (state r)))).

(** [indexPattern?.id] when it is truthy. *)
Definition truthy_id (indexPattern : option IndexPattern.t) : option string :=
  match indexPattern ≫= IndexPattern.id with
  | Some i => if truthy i then Some i else None
  | None => None
  end.

(** The members every plain object inherits from [Object.prototype]. *)
Definition objectPrototypeNames : list string :=
  ["constructor"; "hasOwnProperty"; "isPrototypeOf"; "propertyIsEnumerable";
   "toLocaleString"; "toString"; "valueOf"; "__proto__";
   "__defineGetter__"; "__defineSetter__"; "__lookupGetter__"; "__lookupSetter__"].

(** [memorizedForm.current[k]] is truthy.  The table is a plain object
    ([useRef({})]): a read finds its own entries and what it inherits, the
    members of [Object.prototype].  An assignment under the key "__proto__"
    creates no entry but makes the assigned object the prototype of the
    table; it is kept in the map under that key, which is what a read of
    that key returns, and the table then also inherits the [filters] and the
    [geoField] that object defines.  What is inherited has no [filters] and
    no [geoField] of its own, so only this test tells it from no entry. *)
Definition memorized_truthy (form : gmap string (Memo.t Filter)) (k : string) : bool :=
  (bool_decide (is_Some (form !! k))
   || bool_decide (k ∈ objectPrototypeNames)
   || match form !! "__proto__" with
      | Some prototype =>
          (String.eqb k "filters" && bool_decide (is_Some (Memo.filters prototype)))
          || (String.eqb k "geoField" && bool_decide (is_Some (Memo.geoField prototype)))
      | None => false
      end)%bool.

(** *** The memorization effect (lines 75-88) *)
Definition memorizeEffect (r : Render) : M unit :=
  match truthy_id (Hooks.indexPattern (state r)) with
  | Some i =>
      let! cfg := deref_layer (selectedLayerConfig r) in
      let! source := deref_source (Layer.source cfg) in
      if String.eqb i (Source.indexPatternId source) then
        let! form := read_memorizedForm in
        if memorized_truthy form i then ret tt
        else
          let! field := selectedField r in
          write_memorizedForm i (Memo.mk (Source.filters source) field)
      else ret tt
  | None => ret tt
  end.

(** [memorizedForm.current[id] = { ...memorizedForm.current[id], ... }]
    under the guard [indexPattern?.id]. *)
Definition memorize (r : Render)
    (update : option (Memo.t Filter) -> Memo.t Filter) : M unit :=
  match truthy_id (Hooks.indexPattern (state r)) with
  | Some i =>
      let! form := read_memorizedForm in
      write_memorizedForm i (update (form !! i))
  | None => ret tt
  end.

(** *** The change handlers *)

(** Lines 90-112.  The source object is allocated before the configuration
    that refers to it; the order of the two allocations is not observable. *)
Definition onGeoFieldChange (r : Render) (field : option IndexPatternField.t) : M unit :=
  match field with
  | Some field =>
      let! cfg := deref_layer (selectedLayerConfig r) in
      let! old := deref_source (Layer.source cfg) in
      let! source :=
        new (SourceObject
               (Source.set_geoFieldType (IndexPatternField.type field)
                  (Source.set_geoFieldName (IndexPatternField.displayName field) old))) in
      let! config := new (LayerObject (Layer.mk (Layer.id cfg) source)) in
      let! _ := invoke (setSelectedLayerConfig config) in
      memorize r (fun m => Memo.mk (m ≫= @Memo.filters Filter) (Some field))
  | None => ret tt
  end.

(** Lines 173-178. *)
Definition onDocumentRequestNumberChange (r : Render) (value : string) : M unit :=
  let selectedNumber := parseInt value in
  let! cfg := deref_layer (selectedLayerConfig r) in
  let! old := deref_source (Layer.source cfg) in
  let! source := new (SourceObject (Source.set_documentRequestNumber selectedNumber old)) in
  let! config := new (LayerObject (Layer.mk (Layer.id cfg) source)) in
  invoke (setSelectedLayerConfig config).

(** Lines 180-187: the loop pushes the label of each option in turn. *)
Definition onTooltipSelectionChange (r : Render) (options : list ComboOption.t) : M unit :=
  let tooltipSelection :=
    fold_left (fun selection option => selection ++ [ComboOption.label option]) options [] in
  let! cfg := deref_layer (selectedLayerConfig r) in
  let! old := deref_source (Layer.source cfg) in
  let! source := new (SourceObject (Source.set_tooltipFields (Some tooltipSelection) old)) in
  let! config := new (LayerObject (Layer.mk (Layer.id cfg) source)) in
  invoke (setSelectedLayerConfig config).

(** Lines 189-205. *)
Definition onFiltersUpdated (r : Render) (filters : list Filter) : M unit :=
  let! cfg := deref_layer (selectedLayerConfig r) in
  let! old := deref_source (Layer.source cfg) in
  let! source := new (SourceObject (Source.set_filters (Some filters) old)) in
  let! config := new (LayerObject (Layer.mk (Layer.id cfg) source)) in
  let! _ := invoke (setSelectedLayerConfig config) in
  memorize r (fun m => Memo.mk (Some filters) (m ≫= @Memo.geoField Filter)).

(** Lines 252-256. *)
Definition onShowTooltipsChange (r : Render) (checked : bool) : M unit :=
  let! _ := setShowTooltips checked in
  let! cfg := deref_layer (selectedLayerConfig r) in
  let! old := deref_source (Layer.source cfg) in
  let! source := new (SourceObject (Source.set_showTooltips checked old)) in
  let! config := new (LayerObject (Layer.mk (Layer.id cfg) source)) in
  invoke (setSelectedLayerConfig config).

(** Lines 258-261. *)
Definition onToggleGeoBoundingBox (r : Render) (checked : bool) : M unit :=
  let! cfg := deref_layer (selectedLayerConfig r) in
  let! old := deref_source (Layer.source cfg) in
  let! source := new (SourceObject (Source.set_useGeoBoundingBoxFilter checked old)) in
  let! config := new (LayerObject (Layer.mk (Layer.id cfg) source)) in
  invoke (setSelectedLayerConfig config).


(** *** The effects *)

(** [indexPattern.id !== indexPatternId], the left side possibly undefined. *)
Definition strict_ne (a : option string) (b : string) : bool :=
  match a with
  | Some i => negb (String.eqb i b)
  | None => true
  end.

(** Lines 119-122. *)
Definition updateDisabledEffect (r : Render) : M unit :=
  let! field := selectedField r in
  let disableUpdate :=
    (negb (bool_decide (is_Some (Hooks.indexPattern (state r))))
     || negb (bool_decide (is_Some field))
     || Hooks.hasInvalidRequestNumber (state r))%bool in
  invoke (setIsUpdateDisabled disableUpdate).

(** Lines 207-217.  [indexPatterns] is the lookup service of the host;
    [None] stands for a lookup that never resolves. *)
Definition selectIndexPatternEffect
    (indexPatterns : string -> option IndexPattern.t) (r : Render) : M unit :=
  let! cfg := deref_layer (selectedLayerConfig r) in
  let! source := deref_source (Layer.source cfg) in
  if truthy (Source.indexPatternId source) then
    match indexPatterns (Source.indexPatternId source) with
    | Some selectedIndexPattern => setIndexPattern (Some selectedIndexPattern)
    | None => ret tt
    end
  else ret tt.

(** Lines 220-243.  [source] is a copy: the assignments write the copy. *)
Definition indexPatternChangeEffect (r : Render) : M unit :=
  let! cfg := deref_layer (selectedLayerConfig r) in
  let! old := deref_source (Layer.source cfg) in
  let! source := new (SourceObject old) in
  match Hooks.indexPattern (state r) with
  | Some indexPattern =>
      if strict_ne (IndexPattern.id indexPattern) (Source.indexPatternId old) then
        let! _ := assign source
                    (Source.set_indexPatternId (default "" (IndexPattern.id indexPattern))) in
        let! _ := assign source
                    (Source.set_indexPatternRefName (IndexPattern.title indexPattern)) in
        let! form := read_memorizedForm in
        let filters :=
          match truthy_id (Some indexPattern) with
          | Some i => default [] (form !! i ≫= @Memo.filters Filter)
          | None => []
          end in
        let! _ := assign source (Source.set_filters (Some filters)) in
        let geoField :=
          match truthy_id (Some indexPattern) with
          | Some i => form !! i ≫= @Memo.geoField Filter
          | None => None
          end in
        let! _ :=
          match geoField with
          | Some geoField =>
              let! _ := assign source
                          (Source.set_geoFieldName (IndexPatternField.displayName geoField)) in
              assign source (Source.set_geoFieldType (IndexPatternField.type geoField))
          | None => ret tt
          end in
        let! config := new (LayerObject (Layer.mk (Layer.id cfg) source)) in
        invoke (setSelectedLayerConfig config)
      else ret tt
  | None => ret tt
  end.

(** Lines 245-250. *)
Definition validateEffect (r : Render) : M unit :=
  let! cfg := deref_layer (selectedLayerConfig r) in
  let! source := deref_source (Layer.source cfg) in
  setHasInvalidRequestNumber
    (js_lt (Source.documentRequestNumber source) (of_Z 1)
     || js_gt (Source.documentRequestNumber source) (of_Z 10000))%bool.

(** *** What is rendered *)

(** Lines 129-137. *)
Definition formatFieldsToComboBox (fields : option (list IndexPatternField.t))
  : list ComboOption.t :=
  match fields with
  | None => []
  | Some fields =>
      List.map
        (fun field =>
           ComboOption.mk (or_else (IndexPatternField.displayName field)
                                   (IndexPatternField.name field)))
        fields
  end.

(** [_.groupBy(list, key)]: one entry per key, in the order in which the keys
    first occur, each with its elements in the order of the list. *)
Fixpoint group_add {A} (k : string) (x : A) (groups : list (string * list A))
  : list (string * list A) :=
  match groups with
  | [] => [(k, [x])]
  | (k', xs) :: rest =>
      if String.eqb k' k then (k', xs ++ [x]) :: rest
      else (k', xs) :: group_add k x rest
  end.

Definition groupBy {A} (key : A -> string) (l : list A) : list (string * list A) :=
  fold_left (fun groups x => group_add (key x) x groups) l [].

(** A property key that is an array index: a canonical decimal numeral below
    2^32 - 1. *)
Definition all_digits (s : string) : bool :=
  forallb (fun c => bool_decide (is_Some (digit_value c))) (list_ascii_of_string s).

Definition array_index (k : string) : option Z :=
  match k with
  | EmptyString => None
  | String c rest =>
      if (all_digits k && (negb (Ascii.eqb c "0") || String.eqb rest ""))%bool then
        match parse_digits k None with
        | Some n => if (n <? 4294967295)%Z then Some n else None
        | None => None
        end
      else None
  end.

Definition index_le {A} (a b : Z * A) : Prop := (a.1 <= b.1)%Z.

#[local] Instance index_le_dec {A} (a b : Z * A) : Decision (index_le a b).
Proof. unfold index_le. apply _. Defined.

(** [Object.entries(o)] of an object built by inserting [groups] in order:
    the array-index keys in ascending order, then the others in the order of
    insertion. *)
Definition entries {A} (groups : list (string * A)) : list (string * A) :=
  let indexed :=
    omap (fun e => (fun n => (n, e)) <$> array_index e.1) groups in
  let named :=
    List.filter (fun e => negb (bool_decide (is_Some (array_index e.1)))) groups in
  List.map snd (merge_sort index_le indexed) ++ named.

(** Lines 139-161. *)
Definition tooltipFieldsOptions (indexPattern : option IndexPattern.t)
  : list OptionGroup.t :=
  match indexPattern with
  | None => []
  | Some p =>
      let fieldTypeMap := groupBy IndexPatternField.type (IndexPattern.fields p) in
      fold_left
        (fun fieldOptions '(fieldType, fieldEntries) =>
           let fieldsOfSameType :=
             fold_left
               (fun options field =>
                  options ++
                  [ComboOption.mk (or_else (IndexPatternField.displayName field)
                                           (IndexPatternField.name field))])
               fieldEntries [] in
           fieldOptions ++ [OptionGroup.mk fieldType fieldsOfSameType])
        (entries fieldTypeMap) []
  end.




(** *** Events and actions *)

(** A change delivered to one of the six change handlers. *)
Inductive Event : Type :=
| GeoFieldChange (field : option IndexPatternField.t)
| DocumentRequestNumberChange (value : string)
| TooltipSelectionChange (options : list ComboOption.t)
| FiltersUpdated (filters : list Filter)
| ShowTooltipsChange (checked : bool)
| ToggleGeoBoundingBox (checked : bool).

Definition handle (r : Render) (e : Event) : M unit :=
  match e with
  | GeoFieldChange field => onGeoFieldChange r field
  | DocumentRequestNumberChange value => onDocumentRequestNumberChange r value
  | TooltipSelectionChange options => onTooltipSelectionChange r options
  | FiltersUpdated filters => onFiltersUpdated r filters
  | ShowTooltipsChange checked => onShowTooltipsChange r checked
  | ToggleGeoBoundingBox checked => onToggleGeoBoundingBox r checked
  end.

(** Everything that runs on the world of the component: its handlers, its
    effects, the resolution of a selected index pattern, and the parent
    creating an object. *)
Inductive Action : Type :=
| Handler (e : Event)
| MemorizeEffect
| UpdateDisabledEffect
| SelectIndexPatternEffect (indexPatterns : string -> option IndexPattern.t)
| IndexPatternChangeEffect
| ValidateEffect
| IndexPatternSelected (newIndexPattern : IndexPattern.t)
| ParentCreates (o : object).

Definition perform (r : Render) (a : Action) : M unit :=
  match a with
  | Handler e => handle r e
  | MemorizeEffect => memorizeEffect r
  | UpdateDisabledEffect => updateDisabledEffect r
  | SelectIndexPatternEffect indexPatterns => selectIndexPatternEffect indexPatterns r
  | IndexPatternChangeEffect => indexPatternChangeEffect r
  | ValidateEffect => validateEffect r
  | IndexPatternSelected newIndexPattern => setIndexPattern (Some newIndexPattern)
  | ParentCreates o => let! _ := new o in ret tt
  end.

(** The world when the component mounts: the table is empty. *)
Definition mounted (w : World) : Prop :=
  memorizedForm w = ∅ /\ calls w = [].

(** The worlds the component can be in, whatever the renders that React
    schedules. *)
Inductive reachable : World -> Prop :=
| reachable_mounted w : mounted w -> reachable w
| reachable_step w r a w' :
    reachable w -> perform r a w = Some (tt, w') -> reachable w'.


(** *** The rest of what is rendered *)

(** A TypeError. *)
Definition raise {A} : M A := fun _ => None.

(** Lines 124-127. *)
Definition formatFieldToComboBox (field : option IndexPatternField.t)
  : list ComboOption.t :=
  match field with
  | None => []
  | Some field => formatFieldsToComboBox (Some [field])
  end.

(** Lines 163-171. *)
Definition formatTooltipFieldsToComboBox (fields : option (list string))
  : list ComboOption.t :=
  match fields with
  | None => []
  | Some fields => List.map (fun field => ComboOption.mk field) fields
  end.

(** Lines 321-324, the [onChange] of the combo box of geospatial fields.
    [getFieldByName] is the lookup method of the index pattern, which
    belongs to the host.  The optional chaining skips the whole call, the
    evaluation of its argument included, when there is no index pattern;
    otherwise [option[0].label] is read, a TypeError on an empty
    selection. *)
Definition onGeoFieldComboChange
    (getFieldByName : IndexPattern.t -> string -> option IndexPatternField.t)
    (r : Render) (option : list ComboOption.t) : M unit :=
  match Hooks.indexPattern (state r) with
  | Some indexPattern =>
      match option with
      | first :: _ =>
          let field := getFieldByName indexPattern (ComboOption.label first) in
          onGeoFieldChange r field
      | [] => raise
      end
  | None => onGeoFieldChange r None
  end.

(** ** Vocabulary of the properties *)

(** [l] refers to the configuration [c] whose source object holds [s]. *)
Definition resolves (w : World) (l : loc) (c : Layer.t) (s : Source.t Filter) : Prop :=
  heap w !! l = Some (LayerObject c) /\
  heap w !! Layer.source c = Some (SourceObject s).

(** The world after a handler has built the source [s'] and a configuration
    around it from the configuration at [l], and passed it to the parent. *)
Definition emission (w : World) (c : Layer.t) (s' : Source.t Filter) : World :=
  set_calls (calls w ++ [setSelectedLayerConfig (S (length (heap w)))])
    (set_heap
       (heap w ++ [SourceObject s'; LayerObject (Layer.mk (Layer.id c) (length (heap w)))])
       w).

(** The world after [memorize]. *)
Definition memorized (r : Render)
    (update : option (Memo.t Filter) -> Memo.t Filter) (w : World) : World :=
  match truthy_id (Hooks.indexPattern (state r)) with
  | Some i => set_memorizedForm (<[i := update (memorizedForm w !! i)]> (memorizedForm w)) w
  | None => w
  end.

(** The source object a handler builds from the source [s] it reads; no
    object is built for an absent field. *)
Definition built (e : Event) (s : Source.t Filter) : option (Source.t Filter) :=
  match e with
  | GeoFieldChange (Some field) =>
      Some (Source.set_geoFieldType (IndexPatternField.type field)
              (Source.set_geoFieldName (IndexPatternField.displayName field) s))
  | GeoFieldChange None => None
  | DocumentRequestNumberChange value =>
      Some (Source.set_documentRequestNumber (parseInt value) s)
  | TooltipSelectionChange options =>
      Some (Source.set_tooltipFields (Some (List.map ComboOption.label options)) s)
  | FiltersUpdated filters => Some (Source.set_filters (Some filters) s)
  | ShowTooltipsChange checked => Some (Source.set_showTooltips checked s)
  | ToggleGeoBoundingBox checked => Some (Source.set_useGeoBoundingBoxFilter checked s)
  end.

(** What a handler does besides building and passing the configuration:
    [before] it (the state setter of [onShowTooltipsChange]) and
    [afterwards] (the memorization of the two handlers that memorize). *)
Definition before (e : Event) (w : World) : World :=
  match e with
  | ShowTooltipsChange checked =>
      set_pending (Hooks.set_showTooltips checked (pending w)) w
  | _ => w
  end.

Definition afterwards (r : Render) (e : Event) (w : World) : World :=
  match e with
  | GeoFieldChange (Some field) =>
      memorized r (fun m => Memo.mk (m ≫= @Memo.filters Filter) (Some field)) w
  | FiltersUpdated filters =>
      memorized r (fun m => Memo.mk (Some filters) (m ≫= @Memo.geoField Filter)) w
  | _ => w
  end.

(** The properties of the source a handler is defined to change. *)
Definition touched (e : Event) : list Source.key :=
  match e with
  | GeoFieldChange _ => [Source.GeoFieldName; Source.GeoFieldType]
  | DocumentRequestNumberChange _ => [Source.DocumentRequestNumber]
  | TooltipSelectionChange _ => [Source.TooltipFields]
  | FiltersUpdated _ => [Source.Filters]
  | ShowTooltipsChange _ => [Source.ShowTooltips]
  | ToggleGeoBoundingBox _ => [Source.UseGeoBoundingBoxFilter]
  end.

(** The emitted source carries the change of the event. *)
Definition reflects (e : Event) (s' : Source.t Filter) : Prop :=
  match e with
  | GeoFieldChange (Some field) =>
      Source.geoFieldName s' = IndexPatternField.displayName field /\
      Source.geoFieldType s' = IndexPatternField.type field
  | GeoFieldChange None => False
  | DocumentRequestNumberChange value =>
      Source.documentRequestNumber s' = parseInt value
  | TooltipSelectionChange options =>
      Source.tooltipFields s' = Some (List.map ComboOption.label options)
  | FiltersUpdated filters => Source.filters s' = Some filters
  | ShowTooltipsChange checked => Source.showTooltips s' = checked
  | ToggleGeoBoundingBox checked => Source.useGeoBoundingBoxFilter s' = checked
  end.

(** The order of the numbers of the language: NaN is related to nothing. *)
Inductive less : number -> number -> Prop :=
| less_finite a b : (a < b)%Q -> less (Finite a) (Finite b)
| less_below_finite b : less NegInfinity (Finite b)
| less_below_above : less NegInfinity PosInfinity
| less_finite_above a : less (Finite a) PosInfinity.

(** The document count lies outside [1, 10000]. *)
Definition out_of_range (n : number) : Prop :=
  less n (of_Z 1) \/ less (of_Z 10000) n.

(** The source the effect builds for the index pattern [p] from the table
    [form] and the source [old] it copies. *)
Definition switched (p : IndexPattern.t) (form : gmap string (Memo.t Filter))
    (old : Source.t Filter) : Source.t Filter :=
  let filters :=
    match truthy_id (Some p) with
    | Some i => default [] (form !! i ≫= @Memo.filters Filter)
    | None => []
    end in
  let geoField :=
    match truthy_id (Some p) with
    | Some i => form !! i ≫= @Memo.geoField Filter
    | None => None
    end in
  let source :=
    Source.set_filters (Some filters)
      (Source.set_indexPatternRefName (IndexPattern.title p)
         (Source.set_indexPatternId (default "" (IndexPattern.id p)) old)) in
  match geoField with
  | Some geoField =>
      Source.set_geoFieldType (IndexPatternField.type geoField)
        (Source.set_geoFieldName (IndexPatternField.displayName geoField) source)
  | None => source
  end.

(** Which actions are defined to write the table. *)
Definition writes_table (a : Action) : bool :=
  match a with
  | Handler (GeoFieldChange _) | Handler (FiltersUpdated _) | MemorizeEffect => true
  | _ => false
  end.

(** The keys of the table are truthy ids. *)
Definition truthy_keys (form : gmap string (Memo.t Filter)) : Prop :=
  forall k, is_Some (form !! k) -> truthy k = true.

(** A computation whose effect on the table stays within [R]. *)
Definition respects (R : relation (gmap string (Memo.t Filter))) {A} (m : M A) : Prop :=
  forall w a w', m w = Some (a, w') -> R (memorizedForm w) (memorizedForm w').

(** The relation "if the keys were truthy, they still are". *)
Definition keeps_truthy_keys : relation (gmap string (Memo.t Filter)) :=
  fun form form' => truthy_keys form -> truthy_keys form'.

(** The render that follows once the parent has adopted the configuration
    at [l']. *)
Definition rerender (r : Render) (l' : loc) : Render :=
  Build_Render l' (state r).

(** What [group_add k x] does to one entry. *)
Definition extend {A} (k : string) (x : A) (entry : string * list A) : string * list A :=
  if String.eqb entry.1 k then (entry.1, entry.2 ++ [x]) else entry.

(** The entries of [groupBy key l]: distinct keys, the keys of the elements
    of [l], each with the elements of [l] that have it, in order. *)
Definition grouped {A} (key : A -> string) (l : list A)
    (groups : list (string * list A)) : Prop :=
  NoDup groups.*1 /\
  (forall k, k ∈ groups.*1 <-> exists x, x ∈ l /\ key x = k) /\
  Forall (fun entry => entry.2 = List.filter (fun x => String.eqb (key x) entry.1) l) groups /\
  concat groups.*2 ≡ₚ l.

(** The label of a field in a combo box. *)
Definition fieldLabel (field : IndexPatternField.t) : ComboOption.t :=
  ComboOption.mk
    (if decide (IndexPatternField.displayName field = "")
     then IndexPatternField.name field
     else IndexPatternField.displayName field).

(** A computation that only takes a world to worlds related to it by [R]. *)
Definition preserves (R : relation World) {A} (m : M A) : Prop :=
  forall w a w', m w = Some (a, w') -> R w w'.

(** The heap only grows: the objects it held are where and what they were. *)
Definition heap_grows : relation World :=
  fun w w' => heap w `prefix_of` heap w'.

(** The calls made are added at the end, and all satisfy [P]. *)
Definition calls_only (P : call -> Prop) : relation World :=
  fun w w' => exists made, calls w' = calls w ++ made /\ Forall P made.

(** The value of one state hook is left as it was. *)
Definition same_hook {A} (hook : Hooks.t -> A) : relation World :=
  fun w w' => hook (pending w') = hook (pending w).

(** Which callback of the props an action may call. *)
Definition may_call (a : Action) (c : call) : Prop :=
  match c, a with
  | setSelectedLayerConfig _, (Handler _ | IndexPatternChangeEffect) => True
  | setIsUpdateDisabled _, UpdateDisabledEffect => True
  | _, _ => False
  end.

End DocumentLayerSource.

(** ** The component on concrete configurations *)

Notation "'let!' x ':=' m 'in' k" := (bind m (fun x => k))
  (at level 10, x name, m at level 100, k at level 200).

(** A layer "layer-1" over the index pattern "ip-1", with its geospatial
    field selected; filters are written as text. *)
Definition location_field : IndexPatternField.t :=
  IndexPatternField.mk "location" "location" "geo_point".

Definition status_field : IndexPatternField.t :=
  IndexPatternField.mk "status" "status" "number".

Definition logs_pattern : IndexPattern.t :=
  IndexPattern.mk (Some "ip-1") "logs-*" [status_field; location_field].

Definition metrics_pattern : IndexPattern.t :=
  IndexPattern.mk (Some "ip-2") "metrics-*"
    [IndexPatternField.mk "origin" "origin" "geo_shape"].

Definition logs_source : Source.t string :=
  Source.mk "ip-1" "logs-*" "location" "geo_point" (of_Z 1000)
    (Some []) (Some ["status"]) true false.

Definition logs_layer : Layer.t := Layer.mk "layer-1" 0.

Definition logs_hooks : Hooks.t := Hooks.mk (Some logs_pattern) false true.

Definition logs_world : @World string :=
  Build_World [SourceObject logs_source; LayerObject logs_layer] ∅ logs_hooks [].

Definition logs_render : Render := Build_Render 1 logs_hooks.

(** The same layer in a render in which "ip-2" has just been selected. *)
Definition metrics_render : Render :=
  Build_Render 1 (Hooks.mk (Some metrics_pattern) false true).

(** An index pattern whose one geospatial field has a dotted name, which the
    host shortens in [displayName]. *)
Definition dotted_field : IndexPatternField.t :=
  IndexPatternField.mk "geo.location" "g.location" "geo_point".

Definition dotted_pattern : IndexPattern.t :=
  IndexPattern.mk (Some "ip-3") "flights-*" [dotted_field].

Definition dotted_hooks : Hooks.t := Hooks.mk (Some dotted_pattern) false true.

Definition dotted_world : @World string :=
  Build_World
    [SourceObject (Source.mk "ip-3" "flights-*" "" "" (of_Z 1000) (Some []) (Some []) true false);
     LayerObject (Layer.mk "layer-2" 0)]
    ∅ dotted_hooks [].

Definition dotted_render : Render := Build_Render 1 dotted_hooks.






(** ** Properties *)

Section Properties.
Context {Filter : Type}.
Implicit Types (w : @World Filter) (s : Source.t Filter) (r : Render) (e : @Event Filter).

Lemma resolves_config_at w l c s :
  resolves w l c s -> config_at w l = Some (Layer.id c, s).
Proof. intros [Hc Hs]. unfold config_at. by rewrite Hc, Hs. Qed.

Lemma config_at_resolves w l i s :
  config_at w l = Some (i, s) -> exists c, resolves w l c s /\ Layer.id c = i.
Proof.
  unfold config_at, resolves. intros H.
  destruct (heap w !! l) as [[c|]|] eqn:Hc; try discriminate.
  destruct (heap w !! Layer.source c) as [[|s0]|] eqn:Hs; try discriminate.
  injection H as <- <-. eauto.
Qed.

Lemma deref_layer_run w l c :
  heap w !! l = Some (LayerObject c) -> deref_layer l w = Some (c, w).
Proof. intros H. unfold deref_layer. by rewrite H. Qed.

Lemma deref_source_run w l s :
  heap w !! l = Some (SourceObject s) -> deref_source l w = Some (s, w).
Proof. intros H. unfold deref_source. by rewrite H. Qed.

(** Reading the configuration of the render, then its source. *)
Lemma read_config_run {A} w l c s (k : Layer.t -> Source.t Filter -> M A) :
  resolves w l c s ->
  (let! cfg := deref_layer l in
   let! source := deref_source (Layer.source cfg) in
   k cfg source) w = k c s w.
Proof.
  intros [Hc Hs]. unfold bind.
  rewrite (deref_layer_run _ _ Hc). cbn. by rewrite (deref_source_run _ _ Hs).
Qed.

(** Building the copy and passing it up. *)
Lemma emit_run w c s' :
  (let! source := new (SourceObject s') in
   let! config := new (LayerObject (Layer.mk (Layer.id c) source)) in
   invoke (setSelectedLayerConfig config)) w = Some (tt, emission w c s').
Proof.
  unfold bind, new, invoke, emission, set_calls, set_heap. cbn.
  rewrite length_app, <- app_assoc. cbn.
  by replace (length (heap w) + 1) with (S (length (heap w))) by lia.
Qed.


Lemma emit_then_run {A} w c s' (k : M A) :
  (let! source := new (SourceObject s') in
   let! config := new (LayerObject (Layer.mk (Layer.id c) source)) in
   let! _ := invoke (setSelectedLayerConfig config) in
   k) w = k (emission w c s').
Proof.
  unfold bind, new, invoke, emission, set_calls, set_heap. cbn.
  rewrite length_app, <- app_assoc. cbn.
  by replace (length (heap w) + 1) with (S (length (heap w))) by lia.
Qed.

Lemma memorize_run r update w :
  memorize r update w = Some (tt, memorized r update w).
Proof.
  unfold memorize, memorized.
  by destruct (truthy_id (Hooks.indexPattern (state r))).
Qed.

Lemma memorized_heap r update w : heap (memorized r update w) = heap w.
Proof. unfold memorized. by destruct truthy_id. Qed.

Lemma memorized_calls r update w : calls (memorized r update w) = calls w.
Proof. unfold memorized. by destruct truthy_id. Qed.

Lemma memorized_pending r update w : pending (memorized r update w) = pending w.
Proof. unfold memorized. by destruct truthy_id. Qed.

(** The labels pushed by the loop of [onTooltipSelectionChange]. *)
Lemma push_labels (options : list ComboOption.t) (acc : list string) :
  fold_left (fun selection option => selection ++ [ComboOption.label option]) options acc
  = acc ++ List.map ComboOption.label options.
Proof.
  revert acc. induction options as [|o options IH]; intros acc; cbn.
  - by rewrite app_nil_r.
  - rewrite IH, <- app_assoc. done.
Qed.

Lemma handle_run r e w c s s' :
  resolves w (selectedLayerConfig r) c s ->
  built e s = Some s' ->
  handle r e w = Some (tt, afterwards r e (emission (before e w) c s')).
Proof.
  intros Hr Hb.
  destruct e as [[field|]|value|options|filters|checked|checked];
    cbn in Hb; try discriminate; injection Hb as <-; cbn [handle before afterwards].
  - unfold onGeoFieldChange. rewrite (read_config_run _ Hr), emit_then_run.
    apply memorize_run.
  - unfold onDocumentRequestNumberChange. cbn zeta.
    by rewrite (read_config_run _ Hr), emit_run.
  - unfold onTooltipSelectionChange. cbn zeta.
    by rewrite (read_config_run _ Hr), emit_run, push_labels.
  - unfold onFiltersUpdated. rewrite (read_config_run _ Hr), emit_then_run.
    apply memorize_run.
  - unfold onShowTooltipsChange, bind at 1. unfold setShowTooltips.
    assert (Hr' : resolves (set_pending (Hooks.set_showTooltips checked (pending w)) w)
                    (selectedLayerConfig r) c s) by exact Hr.
    by rewrite (read_config_run _ Hr'), emit_run.
  - unfold onToggleGeoBoundingBox.
    by rewrite (read_config_run _ Hr), emit_run.
Qed.

Lemma handle_absent_field r w : handle r (GeoFieldChange None) w = Some (tt, w).
Proof. reflexivity. Qed.


(** *** What the heap and the calls look like after an emission *)

Lemma emission_heap_old w c s' l o :
  heap w !! l = Some o -> heap (emission w c s') !! l = Some o.
Proof. intros H. cbn. by apply lookup_app_l_Some. Qed.

Lemma emission_fresh w :
  heap w !! length (heap w) = None /\ heap w !! S (length (heap w)) = None.
Proof. split; apply lookup_ge_None; lia. Qed.

Lemma emission_resolves w c s' :
  resolves (emission w c s') (S (length (heap w)))
    (Layer.mk (Layer.id c) (length (heap w))) s'.
Proof.
  unfold resolves. cbn. split.
  - rewrite lookup_app_r by lia.
    by replace (S (length (heap w)) - length (heap w)) with 1 by lia.
  - rewrite lookup_app_r by lia. by rewrite Nat.sub_diag.
Qed.

Lemma afterwards_heap r e w : heap (afterwards r e w) = heap w.
Proof. destruct e as [[?|]| | | | |]; cbn; auto using memorized_heap. Qed.

Lemma afterwards_calls r e w : calls (afterwards r e w) = calls w.
Proof. destruct e as [[?|]| | | | |]; cbn; auto using memorized_calls. Qed.

Lemma before_heap e w : heap (before e w) = heap w.
Proof. by destruct e. Qed.

Lemma before_calls e w : calls (before e w) = calls w.
Proof. by destruct e. Qed.

Lemma resolves_heap w1 w2 l c s :
  heap w1 = heap w2 -> resolves w1 l c s -> resolves w2 l c s.
Proof. unfold resolves. by intros ->. Qed.

Lemma built_agree e s s' k :
  built e s = Some s' -> k ∉ touched e -> Source.agree k s s'.
Proof.
  intros Hb Hk.
  destruct e as [[field|]|value|options|filters|checked|checked];
    cbn in Hb; try discriminate; injection Hb as <-;
    destruct k; cbn; try reflexivity;
    exfalso; apply Hk; cbn; set_solver.
Qed.

Lemma built_reflects e s s' : built e s = Some s' -> reflects e s'.
Proof.
  intros Hb.
  destruct e as [[field|]|value|options|filters|checked|checked];
    cbn in Hb; try discriminate; injection Hb as <-; cbn; auto.
Qed.

Lemma built_present e s : e ≠ GeoFieldChange None -> is_Some (built e s).
Proof. destruct e as [[field|]| | | | |]; cbn; intros H; eauto; done. Qed.


(** The world after a handler that built [s']. *)
Lemma handled_calls r e w c s' :
  calls (afterwards r e (emission (before e w) c s'))
  = calls w ++ [setSelectedLayerConfig (S (length (heap w)))].
Proof. rewrite afterwards_calls. cbn. by rewrite before_calls, before_heap. Qed.

Lemma handled_heap r e w c s' :
  heap (afterwards r e (emission (before e w) c s'))
  = heap w ++ [SourceObject s'; LayerObject (Layer.mk (Layer.id c) (length (heap w)))].
Proof. rewrite afterwards_heap. cbn. by rewrite before_heap. Qed.

Lemma handled_resolves r e w c s' :
  resolves (afterwards r e (emission (before e w) c s'))
    (S (length (heap w))) (Layer.mk (Layer.id c) (length (heap w))) s'.
Proof.
  eapply resolves_heap; [symmetry; apply afterwards_heap|].
  rewrite <- (before_heap e w). apply emission_resolves.
Qed.

(** *** The change handlers *)

(** Claim C6, as the code has it.  Every change handler, for a change other
    than an absent geospatial field, runs to completion on a well-formed
    configuration and passes exactly one configuration to
    [setSelectedLayerConfig]: the configuration object and its source object
    are new objects of the heap; every object that was in the heap, the
    received configuration and its source among them, is still there
    unchanged; the new configuration has the id of the received one; its
    source carries the change and agrees with the received source on every
    property the handler is not defined to change.  For an absent field
    ([null]) [onGeoFieldChange] passes nothing and leaves the world as it
    was. *)
Theorem C6_handlers_pass_fresh_copies r e w c s :
  resolves w (selectedLayerConfig r) c s ->
  (e <> GeoFieldChange None ->
   exists w' l' c' s',
     handle r e w = Some (tt, w') /\
     calls w' = calls w ++ [setSelectedLayerConfig l'] /\
     (forall l o, heap w !! l = Some o -> heap w' !! l = Some o) /\
     resolves w' (selectedLayerConfig r) c s /\
     resolves w' l' c' s' /\
     heap w !! l' = None /\
     heap w !! Layer.source c' = None /\
     Layer.id c' = Layer.id c /\
     reflects e s' /\
     (forall k, k ∉ touched e -> Source.agree k s s')) /\
  (e = GeoFieldChange None -> handle r e w = Some (tt, w)).
Proof.
  intros Hr. split.
  - intros He. destruct (built_present s He) as [s' Hb].
    exists (afterwards r e (emission (before e w) c s')),
      (S (length (heap w))), (Layer.mk (Layer.id c) (length (heap w))), s'.
    split; [by eapply handle_run|].
    split; [apply handled_calls|].
    assert (Hold : forall l o, heap w !! l = Some o ->
              heap (afterwards r e (emission (before e w) c s')) !! l = Some o).
    { intros l o Hl. rewrite handled_heap. by apply lookup_app_l_Some. }
    split; [exact Hold|].
    split; [destruct Hr; split; by apply Hold|].
    split; [apply handled_resolves|].
    destruct (emission_fresh w) as [Hf1 Hf2].
    split; [exact Hf2|]. split; [exact Hf1|]. split; [reflexivity|].
    split; [by eapply built_reflects|].
    intros k Hk. by eapply built_agree.
  - intros ->. reflexivity.
Qed.

(** Claim C7, as the code has it.  A change delivered to a handler makes the
    component call [setSelectedLayerConfig] exactly once, with a
    configuration whose source carries the change; the one exception is the
    guard of [onGeoFieldChange]: for an absent field ([null]) the handler
    returns without calling anything and leaves the world as it was. *)
Theorem C7_change_is_passed_up r e w c s :
  resolves w (selectedLayerConfig r) c s ->
  (e ≠ GeoFieldChange None ->
   exists w' l' c' s',
     handle r e w = Some (tt, w') /\
     calls w' = calls w ++ [setSelectedLayerConfig l'] /\
     resolves w' l' c' s' /\
     Layer.id c' = Layer.id c /\
     reflects e s') /\
  (e = GeoFieldChange None -> handle r e w = Some (tt, w)).
Proof.
  intros Hr. split.
  - intros He. destruct (built_present s He) as [s' Hb].
    exists (afterwards r e (emission (before e w) c s')),
      (S (length (heap w))), (Layer.mk (Layer.id c) (length (heap w))), s'.
    split; [by eapply handle_run|].
    split; [apply handled_calls|].
    split; [apply handled_resolves|].
    split; [done|]. by eapply built_reflects.
  - intros ->. reflexivity.
Qed.

(** Claim C8.  For every list of options, [onTooltipSelectionChange] passes
    one configuration to [setSelectedLayerConfig], and the [tooltipFields] of
    its source is the list of the labels of the options, in their order:
    the two lists have the same length and the same element at every
    position. *)
Theorem C8_tooltip_fields_are_the_labels r options w c s :
  resolves w (selectedLayerConfig r) c s ->
  exists w' l' c' s' fields,
    onTooltipSelectionChange r options w = Some (tt, w') /\
    calls w' = calls w ++ [setSelectedLayerConfig l'] /\
    resolves w' l' c' s' /\
    Source.tooltipFields s' = Some fields /\
    fields = List.map ComboOption.label options /\
    length fields = length options /\
    (forall i, fields !! i = ComboOption.label <$> options !! i).
Proof.
  intros Hr.
  pose proof (@handle_run r (TooltipSelectionChange options) w c s _ Hr eq_refl) as Hrun.
  cbn in Hrun.
  eexists _, _, _, _, _. split; [exact Hrun|].
  split; [reflexivity|].
  split; [apply emission_resolves|].
  split; [reflexivity|].
  split; [reflexivity|].
  split; [apply length_map|].
  intros i. apply list_lookup_fmap.
Qed.


(** *** The validity of the document count *)

Lemma js_lt_less x y : js_lt x y = true <-> less x y.
Proof.
  split.
  - intros H.
    destruct x as [| |a|], y as [| |b|]; cbn in H; try discriminate; try constructor.
    apply negb_true_iff in H. apply Qnot_le_lt. intros Hle.
    apply Qle_bool_iff in Hle. congruence.
  - intros H. destruct H as [a b Hab| | |]; cbn; try reflexivity.
    apply negb_true_iff. apply not_true_is_false. intros Hle.
    apply Qle_bool_iff in Hle. by apply Qle_not_lt in Hle.
Qed.

Lemma validateEffect_run r w c s :
  resolves w (selectedLayerConfig r) c s ->
  validateEffect r w =
    Some (tt, set_pending
                (Hooks.set_hasInvalidRequestNumber
                   (js_lt (Source.documentRequestNumber s) (of_Z 1)
                    || js_gt (Source.documentRequestNumber s) (of_Z 10000))
                   (pending w)) w).
Proof. intros Hr. unfold validateEffect. by rewrite (read_config_run _ Hr). Qed.

(** Claim C1.  For every configuration, the validation effect sets
    [hasInvalidRequestNumber] to true exactly when [documentRequestNumber]
    is below 1 or above 10000; for a finite count the flag is false exactly
    when the count lies in [1, 10000], so 1 and 10000 are valid.  The effect
    changes nothing else. *)
Theorem C1_invalid_exactly_outside_range r w c s :
  resolves w (selectedLayerConfig r) c s ->
  exists w',
    validateEffect r w = Some (tt, w') /\
    (Hooks.hasInvalidRequestNumber (pending w') = true
     <-> out_of_range (Source.documentRequestNumber s)) /\
    (forall q, Source.documentRequestNumber s = Finite q ->
       (Hooks.hasInvalidRequestNumber (pending w') = false
        <-> (1 <= q /\ q <= 10000)%Q)) /\
    (Source.documentRequestNumber s = of_Z 1 ->
       Hooks.hasInvalidRequestNumber (pending w') = false) /\
    (Source.documentRequestNumber s = of_Z 10000 ->
       Hooks.hasInvalidRequestNumber (pending w') = false) /\
    heap w' = heap w /\ calls w' = calls w /\
    memorizedForm w' = memorizedForm w /\
    Hooks.indexPattern (pending w') = Hooks.indexPattern (pending w) /\
    Hooks.showTooltips (pending w') = Hooks.showTooltips (pending w).
Proof.
  intros Hr. eexists. split; [by eapply validateEffect_run|]. cbn.
  assert (Hiff : (js_lt (Source.documentRequestNumber s) (of_Z 1)
                  || js_gt (Source.documentRequestNumber s) (of_Z 10000)) = true
                 <-> out_of_range (Source.documentRequestNumber s)).
  { unfold out_of_range, js_gt. rewrite orb_true_iff, !js_lt_less. done. }
  split; [exact Hiff|].
  split.
  { intros q Hq. rewrite <- not_true_iff_false, Hiff, Hq.
    unfold out_of_range, of_Z. split.
    - intros Hn. split.
      + apply Qnot_lt_le. intros Hlt. apply Hn. left. by constructor.
      + apply Qnot_lt_le. intros Hlt. apply Hn. right. by constructor.
    - intros [H1 H2] [H|H]; inversion H; subst.
      + by apply Qle_not_lt in H1.
      + by apply Qle_not_lt in H2. }
  split; [by intros ->|].
  split; [by intros ->|].
  done.
Qed.


(** *** Disabling the update action *)

Lemma selectedField_run r w c s :
  resolves w (selectedLayerConfig r) c s ->
  selectedField r w =
    Some (find_field (Source.geoFieldName s) (geoFields (Hooks.indexPattern (state r))), w).
Proof. intros Hr. unfold selectedField. by rewrite (read_config_run _ Hr). Qed.

Lemma updateDisabledEffect_run r w c s :
  resolves w (selectedLayerConfig r) c s ->
  updateDisabledEffect r w =
    Some (tt,
          set_calls
            (calls w ++
             [setIsUpdateDisabled
                (negb (bool_decide (is_Some (Hooks.indexPattern (state r))))
                 || negb (bool_decide
                            (is_Some (find_field (Source.geoFieldName s)
                                        (geoFields (Hooks.indexPattern (state r))))))
                 || Hooks.hasInvalidRequestNumber (state r))]) w).
Proof.
  intros Hr. unfold updateDisabledEffect, bind.
  by rewrite (selectedField_run _ Hr).
Qed.

Lemma negb_is_Some {A} (o : option A) :
  negb (bool_decide (is_Some o)) = true <-> o = None.
Proof.
  destruct o; cbn; split; try done.
Qed.

(** Claim C2.  The effect calls [setIsUpdateDisabled] once, and the value it
    passes is true exactly when there is no resolved index pattern, or no
    selected geospatial field, or [hasInvalidRequestNumber] is true; so it
    passes true whenever [hasInvalidRequestNumber] is true. *)
Theorem C2_update_disabled_exactly r w c s :
  resolves w (selectedLayerConfig r) c s ->
  exists field disableUpdate,
    selectedField r w = Some (field, w) /\
    updateDisabledEffect r w
      = Some (tt, set_calls (calls w ++ [setIsUpdateDisabled disableUpdate]) w) /\
    (disableUpdate = true <->
       Hooks.indexPattern (state r) = None \/ field = None \/
       Hooks.hasInvalidRequestNumber (state r) = true) /\
    (Hooks.hasInvalidRequestNumber (state r) = true -> disableUpdate = true).
Proof.
  intros Hr. eexists _, _.
  split; [by eapply selectedField_run|].
  split; [by eapply updateDisabledEffect_run|].
  rewrite !orb_true_iff, !negb_is_Some. split; [tauto|].
  intros ->. by right.
Qed.

(** *** A document count that is not a number *)

(** Claim C3.  When [parseInt] cannot parse the text of the input (the empty
    text is such a text), [onDocumentRequestNumberChange] passes a
    configuration whose [documentRequestNumber] is NaN; the validation effect
    of a render of that configuration sets [hasInvalidRequestNumber] to
    false; and in a render that sees this flag the value passed to
    [setIsUpdateDisabled] is true only for want of an index pattern or of a
    selected field. *)
Theorem C3_unparsable_count_is_not_flagged r value w c s :
  resolves w (selectedLayerConfig r) c s ->
  parseInt value = NaN ->
  parseInt "" = NaN /\
  exists w1 l' c' s',
    onDocumentRequestNumberChange r value w = Some (tt, w1) /\
    calls w1 = calls w ++ [setSelectedLayerConfig l'] /\
    resolves w1 l' c' s' /\
    Source.documentRequestNumber s' = NaN /\
    forall st,
    exists w2,
      validateEffect (Build_Render l' st) w1 = Some (tt, w2) /\
      Hooks.hasInvalidRequestNumber (pending w2) = false /\
      forall st',
        Hooks.hasInvalidRequestNumber st' = Hooks.hasInvalidRequestNumber (pending w2) ->
        exists field disableUpdate,
          selectedField (Build_Render l' st') w2 = Some (field, w2) /\
          updateDisabledEffect (Build_Render l' st') w2
            = Some (tt, set_calls (calls w2 ++ [setIsUpdateDisabled disableUpdate]) w2) /\
          (disableUpdate = true <-> Hooks.indexPattern st' = None \/ field = None).
Proof.
  intros Hr Hnan. split; [reflexivity|].
  pose proof (@handle_run r (DocumentRequestNumberChange value) w c s _ Hr eq_refl) as Hrun.
  cbn [handle afterwards before] in Hrun. rewrite Hnan in Hrun.
  set (s' := Source.set_documentRequestNumber NaN s) in *.
  pose proof (emission_resolves w c s') as Hr1.
  eexists _, _, _, _.
  split; [exact Hrun|].
  split; [reflexivity|].
  split; [exact Hr1|].
  split; [reflexivity|].
  intros st.
  set (r1 := Build_Render (S (length (heap w))) st).
  assert (Hr1' : resolves (emission w c s') (selectedLayerConfig r1)
                   (Layer.mk (Layer.id c) (length (heap w))) s') by exact Hr1.
  eexists. split; [exact (validateEffect_run _ Hr1')|].
  split; [reflexivity|].
  intros st' Hflag. cbn in Hflag.
  set (w2 := set_pending _ _).
  set (r2 := Build_Render (S (length (heap w))) st').
  assert (Hr2 : resolves w2 (selectedLayerConfig r2)
                  (Layer.mk (Layer.id c) (length (heap w))) s') by exact Hr1.
  eexists _, _.
  split; [exact (selectedField_run _ Hr2)|].
  split; [exact (updateDisabledEffect_run _ Hr2)|].
  unfold r2. cbn [state].
  rewrite Hflag, orb_false_r, orb_true_iff, !negb_is_Some. done.
Qed.

(** *** The bounding-box checkbox *)




(** *** A change of index pattern *)

Lemma bind_assoc {A B C} (m : M A) (f : A -> M B) (k : B -> M C) w :
  (let! y := (let! x := m in f x) in k y) w
  = (let! x := m in let! y := f x in k y) w.
Proof. unfold bind. by destruct (m w) as [[a w']|]. Qed.

Lemma ret_bind {A B} (a : A) (k : A -> M B) w : (let! x := ret a in k x) w = k a w.
Proof. reflexivity. Qed.

(** The configuration built around the source allocated last. *)
Lemma config_last_run w0 w c s' :
  heap w0 = heap w ++ [SourceObject s'] ->
  memorizedForm w0 = memorizedForm w -> pending w0 = pending w ->
  calls w0 = calls w ->
  (let! config := new (LayerObject (Layer.mk (Layer.id c) (length (heap w)))) in
   invoke (setSelectedLayerConfig config)) w0
  = Some (tt, emission w c s').
Proof.
  intros Hh Hm Hp Hc.
  unfold bind, new, invoke, emission, set_calls, set_heap. cbn.
  rewrite Hh, Hm, Hp, Hc, length_app, <- app_assoc. cbn.
  by replace (length (heap w) + 1) with (S (length (heap w))) by lia.
Qed.

(** A write to the object allocated last. *)
Lemma assign_last {A} w h s f (k : M A) :
  heap w = h ++ [SourceObject s] ->
  (let! _ := assign (length h) f in k) w
  = k (set_heap (h ++ [SourceObject (f s)]) w).
Proof.
  intros Hh. unfold bind, assign. rewrite Hh.
  rewrite lookup_app_r by lia. rewrite Nat.sub_diag. cbn.
  replace (length h) with (length h + 0) at 1 by lia.
  by rewrite insert_app_r.
Qed.

Lemma indexPatternChangeEffect_run r w c s p :
  resolves w (selectedLayerConfig r) c s ->
  Hooks.indexPattern (state r) = Some p ->
  strict_ne (IndexPattern.id p) (Source.indexPatternId s) = true ->
  indexPatternChangeEffect r w
  = Some (tt, emission w c (switched p (memorizedForm w) s)).
Proof.
  intros Hr Hp Hne. unfold indexPatternChangeEffect.
  rewrite (read_config_run _ Hr). unfold bind at 1. cbn [new].
  rewrite Hp, Hne.
  erewrite assign_last by reflexivity.
  erewrite assign_last by reflexivity.
  unfold bind at 1. cbn [read_memorizedForm memorizedForm set_heap].
  erewrite assign_last by reflexivity.
  unfold switched.
  destruct (match truthy_id (Some p) with
            | Some i => memorizedForm w !! i ≫= @Memo.geoField Filter
            | None => None
            end) as [g|].
  - rewrite bind_assoc.
    erewrite assign_last by reflexivity.
    erewrite assign_last by reflexivity.
    by apply config_last_run.
  - rewrite ret_bind. by apply config_last_run.
Qed.


(** *** The table of memorized selections *)

Lemma truthy_id_truthy ip i : truthy_id ip = Some i -> truthy i = true.
Proof.
  unfold truthy_id. destruct (ip ≫= IndexPattern.id) as [j|]; [|done].
  destruct (truthy j) eqn:Hj; [|done]. by intros [= <-].
Qed.

(** Inverts the run of a primitive. *)
Ltac run_inv H :=
  unfold ret, new, invoke, read_memorizedForm, setIndexPattern,
    setHasInvalidRequestNumber, setShowTooltips, write_memorizedForm in H;
  simplify_eq; cbn.

Section Respects.
Variable R : relation (gmap string (Memo.t Filter)).
Context `{!Reflexive R, !Transitive R}.

Lemma respects_bind {A B} (m : M A) (k : A -> M B) :
  respects R m -> (forall a, respects R (k a)) -> respects R (let! x := m in k x).
Proof.
  intros Hm Hk w b w'. unfold bind.
  destruct (m w) as [[a w1]|] eqn:Hmw; [|done].
  intros Hkw. etrans; [by eapply Hm|by eapply Hk].
Qed.

Lemma respects_ret {A} (a : A) : respects R (ret a).
Proof. intros w a' w' Heq. unfold ret in Heq. simplify_eq. reflexivity. Qed.

Lemma respects_deref_layer l : respects R (deref_layer l).
Proof.
  intros w a w'. unfold deref_layer.
  destruct (heap w !! l) as [[?|?]|]; intros Heq; simplify_eq; reflexivity.
Qed.

Lemma respects_deref_source l : respects R (deref_source l).
Proof.
  intros w a w'. unfold deref_source.
  destruct (heap w !! l) as [[?|?]|]; intros Heq; simplify_eq; reflexivity.
Qed.

Lemma respects_new o : respects R (new o).
Proof. intros w a w' Heq. run_inv Heq. reflexivity. Qed.

Lemma respects_assign l f : respects R (assign l f).
Proof.
  intros w a w'. unfold assign.
  destruct (heap w !! l) as [[?|?]|]; intros Heq; simplify_eq; reflexivity.
Qed.

Lemma respects_invoke c : respects R (invoke c).
Proof. intros w a w' Heq. run_inv Heq. reflexivity. Qed.

Lemma respects_read : respects R read_memorizedForm.
Proof. intros w a w' Heq. run_inv Heq. reflexivity. Qed.

Lemma respects_setIndexPattern v : respects R (setIndexPattern v).
Proof. intros w a w' Heq. run_inv Heq. reflexivity. Qed.

Lemma respects_setHasInvalidRequestNumber v : respects R (setHasInvalidRequestNumber v).
Proof. intros w a w' Heq. run_inv Heq. reflexivity. Qed.

Lemma respects_setShowTooltips v : respects R (setShowTooltips v).
Proof. intros w a w' Heq. run_inv Heq. reflexivity. Qed.

Lemma respects_write i v :
  (forall form, R form (<[i := v]> form)) -> respects R (write_memorizedForm i v).
Proof. intros HR w a w' Heq. run_inv Heq. apply HR. Qed.

End Respects.

(** Walks through a computation, one bind or one branch at a time. *)
Ltac respects_walk :=
  repeat first
    [ assumption
    | match goal with
      | |- Reflexive _ => apply _
      | |- Transitive _ => apply _
      end
    | apply respects_ret | apply respects_deref_layer
    | apply respects_deref_source | apply respects_new | apply respects_assign
    | apply respects_invoke | apply respects_read
    | apply respects_setIndexPattern | apply respects_setHasInvalidRequestNumber
    | apply respects_setShowTooltips
    | apply respects_bind; [| | intros ?]
    | match goal with
      | |- respects _ (match ?x with _ => _ end) => destruct x eqn:?
      | |- respects _ (if ?b then _ else _) => destruct b eqn:?
      end ].

Lemma selectedField_respects (R : relation (gmap string (Memo.t Filter)))
    `{!Reflexive R, !Transitive R} r :
  respects R (selectedField r).
Proof. unfold selectedField. respects_walk. Qed.

(** Every action but the three writers leaves the table as it is. *)
Lemma only_writers_write r a w w' :
  writes_table a = false ->
  perform r a w = Some (tt, w') ->
  memorizedForm w' = memorizedForm w.
Proof.
  intros Hw Hrun. symmetry.
  cut (respects eq (perform r a)); [intros Hres; exact (Hres _ _ _ Hrun)|].
  clear Hrun. pose proof (selectedField_respects (R:=eq) r).
  destruct a as [e| | | | | | |]; try discriminate; cbn [perform].
  - destruct e; try discriminate; cbn [handle].
    + unfold onDocumentRequestNumberChange. cbn zeta. respects_walk.
    + unfold onTooltipSelectionChange. cbn zeta. respects_walk.
    + unfold onShowTooltipsChange. respects_walk.
    + unfold onToggleGeoBoundingBox. respects_walk.
  - unfold updateDisabledEffect. respects_walk.
  - unfold selectIndexPatternEffect. respects_walk.
  - unfold indexPatternChangeEffect. cbn zeta. respects_walk.
  - unfold validateEffect. respects_walk.
  - respects_walk.
  - respects_walk.
Qed.


#[local] Instance keeps_truthy_keys_refl : Reflexive (@keeps_truthy_keys Filter).
Proof. intros form Hform. exact Hform. Qed.

#[local] Instance keeps_truthy_keys_trans : Transitive (@keeps_truthy_keys Filter).
Proof. intros f1 f2 f3 H12 H23 H. by apply H23, H12. Qed.

Lemma truthy_keys_insert i v (form : gmap string (Memo.t Filter)) :
  truthy i = true -> keeps_truthy_keys form (<[i := v]> form).
Proof.
  intros Hi Hform k. destruct (decide (i = k)) as [<-|Hne]; [done|].
  rewrite lookup_insert_ne by done. apply Hform.
Qed.

Lemma memorize_respects r update : respects (@keeps_truthy_keys Filter) (memorize r update).
Proof.
  unfold memorize. destruct (truthy_id _) as [i|] eqn:Hi; [|apply respects_ret; apply _].
  apply respects_bind; [apply _|apply respects_read; apply _|]. intros form.
  apply respects_write. intros ?. apply truthy_keys_insert. by eapply truthy_id_truthy.
Qed.

Lemma memorizeEffect_respects r : respects (@keeps_truthy_keys Filter) (memorizeEffect r).
Proof.
  pose proof (selectedField_respects (R:=@keeps_truthy_keys Filter) r).
  unfold memorizeEffect. destruct (truthy_id _) as [i|] eqn:Hi; [|apply respects_ret; apply _].
  respects_walk.
  apply respects_write. intros ?. apply truthy_keys_insert. by eapply truthy_id_truthy.
Qed.

Lemma perform_respects r a : respects (@keeps_truthy_keys Filter) (perform r a).
Proof.
  destruct (writes_table a) eqn:Hw.
  - destruct a as [[[field|]| | | | |]| | | | | | |]; try discriminate; cbn [perform handle].
    + unfold onGeoFieldChange. respects_walk. apply memorize_respects.
    + apply respects_ret; apply _.
    + unfold onFiltersUpdated. respects_walk. apply memorize_respects.
    + apply memorizeEffect_respects.
  - intros w [] w' Hrun. rewrite (only_writers_write _ _ _ Hw Hrun). reflexivity.
Qed.

(** In every world the component can be in, the keys of the table are
    truthy; in particular the empty id has no entry. *)
Lemma reachable_truthy_keys w : reachable w -> truthy_keys (memorizedForm w).
Proof.
  induction 1 as [w [Hform _]|w r a w' _ IH Hrun].
  - rewrite Hform. intros k [m Hm]. by rewrite lookup_empty in Hm.
  - eapply perform_respects; eassumption.
Qed.

Lemma reachable_no_empty_id w : reachable w -> memorizedForm w !! "" = None.
Proof.
  intros Hw. destruct (memorizedForm w !! "") eqn:Hl; [|done].
  by pose proof (reachable_truthy_keys Hw "" (mk_is_Some _ _ Hl)).
Qed.


Lemma truthy_false i : truthy i = false -> i = "".
Proof. by destruct i. Qed.

(** With the invariant of the table, the guards [indexPattern.id ? ... : ...]
    of the effect are lookups in the table. *)
Lemma switched_lookup p i form s :
  IndexPattern.id p = Some i ->
  form !! "" = None ->
  switched p form s =
    let source :=
      Source.set_filters (Some (default [] (form !! i ≫= @Memo.filters Filter)))
        (Source.set_indexPatternRefName (IndexPattern.title p)
           (Source.set_indexPatternId i s)) in
    match form !! i ≫= @Memo.geoField Filter with
    | Some geoField =>
        Source.set_geoFieldType (IndexPatternField.type geoField)
          (Source.set_geoFieldName (IndexPatternField.displayName geoField) source)
    | None => source
    end.
Proof.
  intros Hid Hempty. unfold switched, truthy_id. cbn. rewrite Hid. cbn.
  destruct (truthy i) eqn:Hi; [done|].
  apply truthy_false in Hi. subst i. by rewrite Hempty.
Qed.

(** Claim C4.  In every world the component can be in, when the index
    pattern of the render has an id that differs from
    [source.indexPatternId], the effect passes one configuration to
    [setSelectedLayerConfig], with the id of the received one, in which
    [indexPatternId] is the id of the pattern and [indexPatternRefName] its
    title; [filters] is the list of filters memorized for that id when the
    table has an entry with filters for it, and the empty list otherwise (no
    entry, or an entry without filters); [geoFieldName] and [geoFieldType]
    are the [displayName] and [type] of the geospatial field memorized for
    that id when there is one, and are left as they were otherwise; the
    other properties of the source are copied.  The effect does not write
    the table, and of all actions only [onGeoFieldChange], [onFiltersUpdated]
    and the memorization effect do. *)
Theorem C4_index_pattern_change_restores_memorized r w c s p i :
  reachable w ->
  resolves w (selectedLayerConfig r) c s ->
  Hooks.indexPattern (state r) = Some p ->
  IndexPattern.id p = Some i ->
  i ≠ Source.indexPatternId s ->
  (exists w' l' c' s',
     indexPatternChangeEffect r w = Some (tt, w') /\
     calls w' = calls w ++ [setSelectedLayerConfig l'] /\
     resolves w' l' c' s' /\
     Layer.id c' = Layer.id c /\
     Source.indexPatternId s' = i /\
     Source.indexPatternRefName s' = IndexPattern.title p /\
     (forall m filters,
        memorizedForm w !! i = Some m -> Memo.filters m = Some filters ->
        Source.filters s' = Some filters) /\
     (forall m,
        memorizedForm w !! i = Some m -> Memo.filters m = None ->
        Source.filters s' = Some []) /\
     (memorizedForm w !! i = None -> Source.filters s' = Some []) /\
     (forall m geoField,
        memorizedForm w !! i = Some m -> Memo.geoField m = Some geoField ->
        Source.geoFieldName s' = IndexPatternField.displayName geoField /\
        Source.geoFieldType s' = IndexPatternField.type geoField) /\
     (memorizedForm w !! i ≫= @Memo.geoField Filter = None ->
        Source.geoFieldName s' = Source.geoFieldName s /\
        Source.geoFieldType s' = Source.geoFieldType s) /\
     Source.documentRequestNumber s' = Source.documentRequestNumber s /\
     Source.tooltipFields s' = Source.tooltipFields s /\
     Source.showTooltips s' = Source.showTooltips s /\
     Source.useGeoBoundingBoxFilter s' = Source.useGeoBoundingBoxFilter s /\
     memorizedForm w' = memorizedForm w) /\
  (forall r0 a w0 w0',
     perform r0 a w0 = Some (tt, w0') -> writes_table a = false ->
     memorizedForm w0' = memorizedForm w0).
Proof.
  intros Hreach Hr Hp Hid Hne. split; [|by eauto using only_writers_write].
  assert (Hstrict : strict_ne (IndexPattern.id p) (Source.indexPatternId s) = true).
  { rewrite Hid. cbn. apply negb_true_iff, not_true_iff_false.
    by rewrite String.eqb_eq. }
  pose proof (indexPatternChangeEffect_run _ Hr Hp Hstrict) as Hrun.
  rewrite (@switched_lookup p i (memorizedForm w) s Hid (reachable_no_empty_id Hreach)) in Hrun.
  cbn zeta in Hrun.
  eexists _, _, _, _. split; [exact Hrun|].
  split; [reflexivity|].
  split; [apply emission_resolves|].
  split; [reflexivity|].
  destruct (memorizedForm w !! i) as [m|] eqn:Hm; cbn.
  - destruct (Memo.geoField m) as [g|] eqn:Hg, (Memo.filters m) as [fs|] eqn:Hfs; cbn;
      repeat split; intros; simplify_eq; done.
  - repeat split; intros; simplify_eq; done.
Qed.


(** *** Selecting a geospatial field *)

(** [find] returns the one field with the name looked for. *)
Lemma find_unique_name (fields : list IndexPatternField.t) field :
  field ∈ fields ->
  (forall other, other ∈ fields ->
     IndexPatternField.name other = IndexPatternField.name field -> other = field) ->
  List.find (fun f => String.eqb (IndexPatternField.name f) (IndexPatternField.name field))
    fields = Some field.
Proof.
  intros Hin Huniq.
  destruct (List.find _ fields) as [found|] eqn:Hfind.
  - apply find_some in Hfind as [Hfound Hname].
    apply String.eqb_eq in Hname. f_equal. apply Huniq; [|done].
    by apply list_elem_of_In.
  - apply list_elem_of_In in Hin.
    pose proof (find_none _ _ Hfind _ Hin) as Hname. cbn in Hname.
    by rewrite String.eqb_refl in Hname.
Qed.

(** The selection comes back when the [displayName] of the chosen field is
    its [name] and no other geospatial field has that name. *)
Lemma selection_comes_back_for_equal_names r w c s p fields field :
  resolves w (selectedLayerConfig r) c s ->
  Hooks.indexPattern (state r) = Some p ->
  geoFields (Some p) = Some fields ->
  field ∈ fields ->
  IndexPatternField.displayName field = IndexPatternField.name field ->
  (forall other, other ∈ fields ->
     IndexPatternField.name other = IndexPatternField.name field -> other = field) ->
  exists w' l',
    onGeoFieldChange r (Some field) w = Some (tt, w') /\
    calls w' = calls w ++ [setSelectedLayerConfig l'] /\
    selectedField (rerender r l') w' = Some (Some field, w').
Proof.
  intros Hr Hp Hgeo Hin Hname Huniq.
  pose proof (@handle_run r (GeoFieldChange (Some field)) w c s _ Hr eq_refl) as Hrun.
  cbn [handle] in Hrun.
  eexists _, _. split; [exact Hrun|].
  split; [apply handled_calls|].
  erewrite selectedField_run
    by (cbn [rerender selectedLayerConfig]; apply handled_resolves).
  cbn [rerender state]. rewrite Hp, Hgeo. cbn. rewrite Hname.
  by rewrite (find_unique_name Hin Huniq).
Qed.


(** *** The groups of tooltip fields *)

Section GroupBy.
Context {A : Type} (key : A -> string).

Lemma extend_key k (x : A) entry : (extend k x entry).1 = entry.1.
Proof. unfold extend. by destruct (String.eqb entry.1 k). Qed.

Lemma extend_other k x (groups : list (string * list A)) :
  k ∉ groups.*1 -> extend k x <$> groups = groups.
Proof.
  induction groups as [|[k' xs] groups IH]; [done|]. cbn. intros Hk.
  apply not_elem_of_cons in Hk as [Hne Hk]. rewrite (IH Hk).
  unfold extend. cbn. destruct (String.eqb_spec k' k); [congruence|done].
Qed.

Lemma group_add_extend k x (groups : list (string * list A)) :
  NoDup groups.*1 ->
  group_add k x groups
  = (extend k x <$> groups) ++ (if decide (k ∈ groups.*1) then [] else [(k, [x])]).
Proof.
  induction groups as [|[k' xs] groups IH]; [done|]. cbn.
  intros [Hk' Hnd]%NoDup_cons. unfold extend at 1. cbn.
  destruct (String.eqb_spec k' k) as [->|Hne].
  - rewrite extend_other by done. rewrite decide_True by left. by rewrite app_nil_r.
  - rewrite (IH Hnd). cbn. do 2 f_equal.
    destruct (decide (k ∈ groups.*1)) as [Hin|Hnin].
    + by rewrite decide_True by (by right).
    + rewrite decide_False; [done|].
      intros [?|?]%elem_of_cons; congruence.
Qed.

Lemma groupBy_snoc (l : list A) x :
  groupBy key (l ++ [x]) = group_add (key x) x (groupBy key l).
Proof. unfold groupBy. by rewrite fold_left_app. Qed.

Lemma grouped_step l groups x :
  grouped key l groups -> grouped key (l ++ [x]) (group_add (key x) x groups).
Proof.
  intros (Hnd & Hkeys & Hall & Hperm).
  rewrite group_add_extend by done.
  assert (Hfst : (extend (key x) x <$> groups).*1 = groups.*1).
  { rewrite <- list_fmap_compose. apply list_fmap_ext. intros _ e _. apply extend_key. }
  assert (Hext : Forall (fun entry => entry.2
                   = List.filter (fun y => String.eqb (key y) entry.1) (l ++ [x]))
                   (extend (key x) x <$> groups)).
  { apply Forall_fmap. eapply Forall_impl; [exact Hall|].
    intros [k xs] Hxs. cbn in *. rewrite List.filter_app. cbn. unfold extend. cbn.
    destruct (String.eqb_spec k (key x)) as [->|Hne]; cbn.
    - rewrite String.eqb_refl. by rewrite <- Hxs.
    - destruct (String.eqb_spec (key x) k); [congruence|].
      by rewrite app_nil_r. }
  destruct (decide (key x ∈ groups.*1)) as [Hin|Hnin].
  - rewrite app_nil_r. repeat split.
    + by rewrite Hfst.
    + rewrite Hfst. intros Hk. apply Hkeys in Hk as (y & Hy & <-).
      exists y. split; [|done]. apply elem_of_app. by left.
    + rewrite Hfst. intros (y & [Hy|Hy%list_elem_of_singleton]%elem_of_app & <-).
      * apply Hkeys. eauto.
      * by subst y.
    + exact Hext.
    + apply list_elem_of_fmap in Hin as ([k xs] & Hk & Hentry). cbn in Hk. subst k.
      apply list_elem_of_split in Hentry as (g1 & g2 & ->).
      rewrite fmap_app, NoDup_app in Hnd. destruct Hnd as (_ & Hdisj & Hnd2).
      cbn in Hnd2. apply NoDup_cons in Hnd2 as [Hnot2 _].
      assert (Hnot1 : key x ∉ g1.*1).
      { intros H1. apply (Hdisj _ H1). cbn. by left. }
      rewrite !fmap_app. cbn. rewrite !extend_other by done.
      unfold extend at 1. cbn. rewrite String.eqb_refl. cbn.
      rewrite fmap_app, concat_app in Hperm. cbn in Hperm.
      rewrite concat_app. cbn.
      rewrite <- Hperm. rewrite <- !app_assoc.
      apply Permutation_app_head, Permutation_app_head.
      apply (Permutation_app_comm [x]).
  - rewrite extend_other in Hext |- * by done. repeat split.
    + rewrite fmap_app. cbn. apply NoDup_app. repeat split; [done| |apply NoDup_singleton].
      intros k Hk Hk'%list_elem_of_singleton. by subst k.
    + rewrite fmap_app. cbn.
      intros [Hk|Hk%list_elem_of_singleton]%elem_of_app.
      * apply Hkeys in Hk as (y & Hy & <-). exists y. split; [|done].
        apply elem_of_app. by left.
      * subst k. exists x. split; [|done]. apply elem_of_app. right. by left.
    + rewrite fmap_app. cbn.
      intros (y & [Hy|Hy%list_elem_of_singleton]%elem_of_app & <-).
      * apply elem_of_app. left. apply Hkeys. eauto.
      * subst y. apply elem_of_app. right. by left.
    + apply Forall_app. split; [exact Hext|].
      apply Forall_singleton. cbn. rewrite List.filter_app. cbn.
      rewrite String.eqb_refl.
      replace (List.filter (fun y => String.eqb (key y) (key x)) l) with (@nil A); [done|].
      symmetry. destruct (List.filter _ l) as [|y ys] eqn:Hf; [done|].
      assert (Hy : In y (List.filter (fun y => String.eqb (key y) (key x)) l))
        by (rewrite Hf; by left).
      apply filter_In in Hy as [Hy Hkey]. apply String.eqb_eq in Hkey.
      exfalso. apply Hnin, Hkeys. exists y. split; [by apply list_elem_of_In|done].
    + rewrite fmap_app, concat_app. cbn. by rewrite Hperm.
Qed.

Lemma groupBy_grouped l : grouped key l (groupBy key l).
Proof.
  induction l as [|x l IH] using rev_ind.
  - repeat split; cbn; try constructor.
    + by intros ?%elem_of_nil.
    + by intros (x & ?%elem_of_nil & _).
  - rewrite groupBy_snoc. by apply grouped_step.
Qed.

End GroupBy.


Lemma concat_Permutation {A} (ls ls' : list (list A)) :
  ls ≡ₚ ls' -> concat ls ≡ₚ concat ls'.
Proof.
  induction 1 as [|l ls ls' _ IH|l1 l2 ls|ls1 ls2 ls3 _ IH1 _ IH2]; cbn.
  - done.
  - by rewrite IH.
  - rewrite !app_assoc. by rewrite (Permutation_app_comm l1 l2).
  - by rewrite IH1.
Qed.

Lemma NoDup_fmap_eq {A B} (f : A -> B) (l : list A) x y :
  NoDup (f <$> l) -> x ∈ l -> y ∈ l -> f x = f y -> x = y.
Proof.
  induction l as [|a l IH]; cbn; [by intros _ ?%elem_of_nil|].
  intros [Ha Hnd]%NoDup_cons [->|Hx]%elem_of_cons [->|Hy]%elem_of_cons Hf.
  - done.
  - exfalso. apply Ha. rewrite Hf. by apply list_elem_of_fmap_2.
  - exfalso. apply Ha. rewrite <- Hf. by apply list_elem_of_fmap_2.
  - by apply IH.
Qed.

(** A loop that pushes [g x] for each [x] builds the mapped list. *)
Lemma fold_left_push {A B} (f : list B -> A -> list B) (g : A -> B) (l : list A) acc :
  (forall acc x, f acc x = acc ++ [g x]) ->
  fold_left f l acc = acc ++ (g <$> l).
Proof.
  intros Hf. revert acc. induction l as [|x l IH]; intros acc; cbn.
  - by rewrite app_nil_r.
  - rewrite Hf, IH, <- app_assoc. done.
Qed.

(** [Object.entries] lists every entry once. *)
Lemma entries_Permutation {A} (groups : list (string * A)) : entries groups ≡ₚ groups.
Proof.
  unfold entries.
  change (List.map snd ?l) with (snd <$> l).
  rewrite merge_sort_Permutation.
  induction groups as [|e groups IH]; [done|]. cbn.
  destruct (array_index e.1) as [n|]; cbn.
  - by rewrite IH.
  - rewrite <- Permutation_middle. by rewrite IH.
Qed.

Lemma or_else_label field :
  ComboOption.mk (or_else (IndexPatternField.displayName field)
                          (IndexPatternField.name field)) = fieldLabel field.
Proof.
  unfold fieldLabel, or_else.
  by destruct (IndexPatternField.displayName field).
Qed.

Lemma tooltipFieldsOptions_entries p :
  tooltipFieldsOptions (Some p)
  = (fun entry => OptionGroup.mk entry.1 (fieldLabel <$> entry.2))
      <$> entries (groupBy IndexPatternField.type (IndexPattern.fields p)).
Proof.
  unfold tooltipFieldsOptions.
  erewrite fold_left_push; [done|].
  intros acc [fieldType fieldEntries]. cbn. do 3 f_equal.
  erewrite fold_left_push; [done|].
  intros acc' field. by rewrite or_else_label.
Qed.

(** Claim C10.  Without an index pattern [tooltipFieldsOptions] is the empty
    list.  With one, the labels of the groups it returns are distinct and are
    the types of the fields; the options of a group are the fields of its
    type, in the order of the index pattern, each labelled by its
    [displayName] when that is not empty and by its [name] otherwise; every
    field belongs to one group and one only; all groups together hold each
    field once. *)
Theorem C10_tooltip_options_partition_by_type :
  tooltipFieldsOptions None = [] /\
  forall p,
    let groups := tooltipFieldsOptions (Some p) in
    let fields := IndexPattern.fields p in
    NoDup (OptionGroup.label <$> groups) /\
    (forall t, t ∈ OptionGroup.label <$> groups
               <-> exists field, field ∈ fields /\ IndexPatternField.type field = t) /\
    (forall group, group ∈ groups ->
       OptionGroup.options group
       = fieldLabel <$>
           List.filter
             (fun field => String.eqb (IndexPatternField.type field) (OptionGroup.label group))
             fields) /\
    (forall field, field ∈ fields ->
       exists group,
         group ∈ groups /\ OptionGroup.label group = IndexPatternField.type field /\
         forall other, other ∈ groups ->
           OptionGroup.label other = IndexPatternField.type field -> other = group) /\
    concat (OptionGroup.options <$> groups) ≡ₚ fieldLabel <$> fields.
Proof.
  split; [reflexivity|]. intros p. cbn zeta.
  pose proof (groupBy_grouped IndexPatternField.type (IndexPattern.fields p))
    as (Hnd & Hkeys & Hall & Hperm).
  pose proof (entries_Permutation (groupBy IndexPatternField.type (IndexPattern.fields p))) as Hent.
  assert (Hlabels : OptionGroup.label <$> (tooltipFieldsOptions (Some p))
                    = (entries (groupBy IndexPatternField.type (IndexPattern.fields p))).*1).
  { rewrite tooltipFieldsOptions_entries, <- list_fmap_compose.
    by apply list_fmap_ext. }
  assert (Hnd' : NoDup (OptionGroup.label <$> (tooltipFieldsOptions (Some p)))) by (by rewrite Hlabels, Hent).
  assert (Hkeys' : forall t, t ∈ OptionGroup.label <$> (tooltipFieldsOptions (Some p))
            <-> exists field, field ∈ (IndexPattern.fields p) /\ IndexPatternField.type field = t).
  { intros t. rewrite Hlabels, Hent. apply Hkeys. }
  split; [exact Hnd'|]. split; [exact Hkeys'|]. split; [|split].
  - intros group Hg. rewrite tooltipFieldsOptions_entries in Hg.
    apply list_elem_of_fmap in Hg as (entry & -> & Hentry). cbn.
    rewrite Hent in Hentry. rewrite Forall_forall in Hall.
    by rewrite (Hall _ Hentry).
  - intros field Hfield.
    assert (Ht : IndexPatternField.type field ∈ OptionGroup.label <$> (tooltipFieldsOptions (Some p)))
      by (apply Hkeys'; eauto).
    apply list_elem_of_fmap in Ht as (group & Hlabel & Hgroup).
    exists group. split; [done|]. split; [done|].
    intros other Hother Heq. eapply NoDup_fmap_eq; eauto. congruence.
  - rewrite tooltipFieldsOptions_entries, <- list_fmap_compose.
    rewrite <- Hperm at 2. rewrite <- (concat_Permutation (fmap_Permutation snd _ _ Hent)).
    generalize (entries (groupBy IndexPatternField.type (IndexPattern.fields p))).
    induction l as [|entry l IH]; [done|]. cbn. by rewrite fmap_app, IH.
Qed.

(** *** What the actions leave alone *)

Section Preserves.
Variable R : relation (@World Filter).
Context `{!Reflexive R, !Transitive R}.

Lemma preserves_bind {A B} (m : M A) (k : A -> M B) :
  preserves R m -> (forall a, preserves R (k a)) -> preserves R (let! x := m in k x).
Proof.
  intros Hm Hk w b w'. unfold bind.
  destruct (m w) as [[a w1]|] eqn:Hmw; [|done].
  intros Hkw. etrans; [by eapply Hm|by eapply Hk].
Qed.

Lemma preserves_ret {A} (a : A) : preserves R (ret a).
Proof. intros w a' w' Heq. unfold ret in Heq. simplify_eq. reflexivity. Qed.

Lemma preserves_raise {A} : preserves R (@raise Filter A).
Proof. intros w a w' Heq. discriminate. Qed.

Lemma preserves_deref_layer l : preserves R (deref_layer l).
Proof.
  intros w a w'. unfold deref_layer.
  destruct (heap w !! l) as [[?|?]|]; intros Heq; simplify_eq; reflexivity.
Qed.

Lemma preserves_deref_source l : preserves R (deref_source l).
Proof.
  intros w a w'. unfold deref_source.
  destruct (heap w !! l) as [[?|?]|]; intros Heq; simplify_eq; reflexivity.
Qed.

Lemma preserves_read : preserves R read_memorizedForm.
Proof. intros w a w' Heq. run_inv Heq. reflexivity. Qed.

Lemma preserves_new o :
  (forall w, R w (set_heap (heap w ++ [o]) w)) -> preserves R (new o).
Proof. intros HR w a w' Heq. run_inv Heq. apply HR. Qed.

Lemma preserves_assign l f :
  (forall w o, R w (set_heap (<[l := o]> (heap w)) w)) -> preserves R (assign l f).
Proof.
  intros HR w a w'. unfold assign.
  destruct (heap w !! l) as [[?|?]|]; intros Heq; simplify_eq. apply HR.
Qed.

Lemma preserves_invoke c :
  (forall w, R w (set_calls (calls w ++ [c]) w)) -> preserves R (invoke c).
Proof. intros HR w a w' Heq. run_inv Heq. apply HR. Qed.

Lemma preserves_write i v :
  (forall w, R w (set_memorizedForm (<[i := v]> (memorizedForm w)) w)) ->
  preserves R (write_memorizedForm i v).
Proof. intros HR w a w' Heq. run_inv Heq. apply HR. Qed.

Lemma preserves_setIndexPattern v :
  (forall w, R w (set_pending (Hooks.set_indexPattern v (pending w)) w)) ->
  preserves R (setIndexPattern v).
Proof. intros HR w a w' Heq. run_inv Heq. apply HR. Qed.

Lemma preserves_setHasInvalidRequestNumber v :
  (forall w, R w (set_pending (Hooks.set_hasInvalidRequestNumber v (pending w)) w)) ->
  preserves R (setHasInvalidRequestNumber v).
Proof. intros HR w a w' Heq. run_inv Heq. apply HR. Qed.

Lemma preserves_setShowTooltips v :
  (forall w, R w (set_pending (Hooks.set_showTooltips v (pending w)) w)) ->
  preserves R (setShowTooltips v).
Proof. intros HR w a w' Heq. run_inv Heq. apply HR. Qed.

End Preserves.

(** Walks through a computation; [side] proves that a primitive that
    changes the world stays within the relation. *)
Ltac preserves_walk side :=
  repeat first
    [ match goal with
      | |- Reflexive _ => apply _
      | |- Transitive _ => apply _
      end
    | apply preserves_ret | apply preserves_raise | apply preserves_deref_layer
    | apply preserves_deref_source | apply preserves_read
    | apply preserves_bind; [| | intros ?]
    | solve [apply preserves_new; side]
    | solve [apply preserves_assign; side]
    | solve [apply preserves_invoke; side]
    | solve [apply preserves_write; side]
    | solve [apply preserves_setIndexPattern; side]
    | solve [apply preserves_setHasInvalidRequestNumber; side]
    | solve [apply preserves_setShowTooltips; side]
    | match goal with
      | |- preserves _ (match ?x with _ => _ end) => destruct x eqn:?
      | |- preserves _ (if ?b then _ else _) => destruct b eqn:?
      end ].

(** Unfolds the action at hand down to the primitives. *)
Ltac unfold_action :=
  cbn [perform handle];
  unfold onGeoFieldChange, onDocumentRequestNumberChange, onTooltipSelectionChange,
    onFiltersUpdated, onShowTooltipsChange, onToggleGeoBoundingBox,
    memorizeEffect, memorize, updateDisabledEffect, selectIndexPatternEffect,
    indexPatternChangeEffect, validateEffect, selectedField;
  cbn zeta.

#[local] Instance heap_grows_refl : Reflexive (@heap_grows Filter).
Proof. intros w. unfold heap_grows. reflexivity. Qed.

#[local] Instance heap_grows_trans : Transitive (@heap_grows Filter).
Proof. intros w1 w2 w3. unfold heap_grows. apply transitivity. Qed.

#[local] Instance calls_only_refl P : Reflexive (@calls_only Filter P).
Proof. intros w. exists []. by rewrite app_nil_r. Qed.

#[local] Instance calls_only_trans P : Transitive (@calls_only Filter P).
Proof.
  intros w1 w2 w3 (m1 & H1 & HP1) (m2 & H2 & HP2).
  exists (m1 ++ m2). rewrite H2, H1, app_assoc. split; [done|].
  by apply Forall_app.
Qed.

#[local] Instance same_hook_refl {A} (hook : Hooks.t -> A) :
  Reflexive (@same_hook Filter A hook).
Proof. by intros w. Qed.

#[local] Instance same_hook_trans {A} (hook : Hooks.t -> A) :
  Transitive (@same_hook Filter A hook).
Proof. intros w1 w2 w3 H12 H23. unfold same_hook in *. congruence. Qed.

Ltac heap_side :=
  intros; unfold heap_grows; cbn; first [reflexivity | by eexists].

Ltac calls_side :=
  intros; first
    [ by (exists []; cbn; rewrite app_nil_r)
    | by (eexists [_]; cbn; split; [reflexivity|repeat constructor]) ].

Ltac hook_side := intros; reflexivity.


(** Extra X1.  Whatever the action, the calls it makes are added to the
    calls made so far, [setSelectedLayerConfig] is called by the change
    handlers and by the effect of an index-pattern change only, and
    [setIsUpdateDisabled] by its own effect only: the memorization effect,
    the validation effect and the lookup of the index pattern never call the
    parent. *)
Theorem X1_who_calls_the_parent r a w w' :
  perform r a w = Some (tt, w') ->
  exists made, calls w' = calls w ++ made /\ Forall (may_call a) made.
Proof.
  intros Hrun.
  cut (preserves (calls_only (may_call a)) (perform r a));
    [intros Hp; exact (Hp _ _ _ Hrun)|].
  clear Hrun.
  destruct a as [[[field|]| | | | |]| | | | | | |];
    unfold_action; preserves_walk calls_side.
Qed.

(** Extra X2.  The state hooks have one writer each:
    [hasInvalidRequestNumber] is set by the validation effect only,
    [showTooltips] by [onShowTooltipsChange] only, and [indexPattern] only
    when an index pattern has been looked up or selected. *)
Theorem X2_state_hooks_have_one_writer r a w w' :
  perform r a w = Some (tt, w') ->
  (a <> ValidateEffect ->
   Hooks.hasInvalidRequestNumber (pending w') = Hooks.hasInvalidRequestNumber (pending w)) /\
  ((forall checked, a <> Handler (ShowTooltipsChange checked)) ->
   Hooks.showTooltips (pending w') = Hooks.showTooltips (pending w)) /\
  ((forall indexPatterns, a <> SelectIndexPatternEffect indexPatterns) ->
   (forall newIndexPattern, a <> IndexPatternSelected newIndexPattern) ->
   Hooks.indexPattern (pending w') = Hooks.indexPattern (pending w)).
Proof.
  intros Hrun. split; [|split].
  - intros Ha.
    cut (preserves (same_hook Hooks.hasInvalidRequestNumber) (perform r a));
      [intros Hp; exact (Hp _ _ _ Hrun)|].
    clear Hrun.
    destruct a as [[[field|]| | | | |]| | | | | | |]; try congruence;
      unfold_action; preserves_walk hook_side.
  - intros Ha.
    cut (preserves (same_hook Hooks.showTooltips) (perform r a));
      [intros Hp; exact (Hp _ _ _ Hrun)|].
    clear Hrun.
    destruct a as [[[field|]| | | |checked|]| | | | | | |];
      try (by destruct (Ha checked));
      unfold_action; preserves_walk hook_side.
  - intros Ha1 Ha2.
    cut (preserves (same_hook Hooks.indexPattern) (perform r a));
      [intros Hp; exact (Hp _ _ _ Hrun)|].
    clear Hrun.
    destruct a as [[[field|]| | | | |]| | |get| | |p|];
      try (by destruct (Ha1 get)); try (by destruct (Ha2 p));
      unfold_action; preserves_walk hook_side.
Qed.


(** *** The effect of an index-pattern change, case by case *)

Lemma read_config_inv {A} w l (k : Layer.t -> Source.t Filter -> M A) x :
  (let! cfg := deref_layer l in
   let! source := deref_source (Layer.source cfg) in
   k cfg source) w = Some x ->
  exists c s, resolves w l c s.
Proof.
  unfold bind, deref_layer, deref_source, resolves.
  destruct (heap w !! l) as [[c|]|] eqn:Hc; try done.
  destruct (heap w !! Layer.source c) as [[|s]|] eqn:Hs; try done.
  eauto.
Qed.

(** Without an index pattern, or with one whose id is the id of the
    configuration, the effect only leaves its copy of the source behind. *)
Lemma indexPatternChangeEffect_idle r w c s :
  resolves w (selectedLayerConfig r) c s ->
  (forall p, Hooks.indexPattern (state r) = Some p ->
     strict_ne (IndexPattern.id p) (Source.indexPatternId s) = false) ->
  indexPatternChangeEffect r w
  = Some (tt, set_heap (heap w ++ [SourceObject s]) w).
Proof.
  intros Hr Hidle. unfold indexPatternChangeEffect.
  rewrite (read_config_run _ Hr). unfold bind at 1. cbn [new].
  destruct (Hooks.indexPattern (state r)) as [p|]; [|done].
  by rewrite (Hidle p eq_refl).
Qed.

Lemma indexPatternChangeEffect_heap r w w' :
  indexPatternChangeEffect r w = Some (tt, w') -> heap_grows w w'.
Proof.
  intros Hrun. pose proof Hrun as Hinv.
  apply read_config_inv in Hinv as (c & s & Hr).
  destruct (Hooks.indexPattern (state r)) as [p|] eqn:Hp.
  - destruct (strict_ne (IndexPattern.id p) (Source.indexPatternId s)) eqn:Hne.
    + rewrite (indexPatternChangeEffect_run _ Hr Hp Hne) in Hrun.
      injection Hrun as <-. unfold heap_grows. cbn. by eexists.
    + rewrite (indexPatternChangeEffect_idle _ Hr) in Hrun.
      * injection Hrun as <-. unfold heap_grows. cbn. by eexists.
      * intros p' Hp'. rewrite Hp in Hp'. by injection Hp' as <-.
  - rewrite (indexPatternChangeEffect_idle _ Hr) in Hrun.
    + injection Hrun as <-. unfold heap_grows. cbn. by eexists.
    + intros p' Hp'. by rewrite Hp in Hp'.
Qed.

(** Extra X3.  No action of the component writes into an object that was in
    the heap: after any handler or effect every object is where and what it
    was.  (The effect of an index-pattern change assigns to properties of a
    source object, but of the copy it has just made.) *)
Theorem X3_objects_are_never_rewritten r a w w' :
  perform r a w = Some (tt, w') ->
  forall l o, heap w !! l = Some o -> heap w' !! l = Some o.
Proof.
  intros Hrun.
  cut (heap_grows w w').
  { intros Hgrow l o Hl. by eapply prefix_lookup_Some. }
  cut (preserves heap_grows (perform r a));
    [intros Hp; exact (Hp _ _ _ Hrun)|].
  clear Hrun.
  destruct a as [[[field|]| | | | |]| | | | | | |];
    try (intros w0 [] w1; apply indexPatternChangeEffect_heap);
    unfold_action; preserves_walk heap_side.
Qed.

(** Extra X4.  The effect of an index-pattern change is silent when there
    is no index pattern or when the id of the index pattern is the
    [indexPatternId] of the configuration: it calls nothing, and leaves the
    configuration, the table and the state hooks as they were. *)
Theorem X4_no_change_no_emission r w c s :
  resolves w (selectedLayerConfig r) c s ->
  (Hooks.indexPattern (state r) = None \/
   exists p, Hooks.indexPattern (state r) = Some p /\
             IndexPattern.id p = Some (Source.indexPatternId s)) ->
  exists w',
    indexPatternChangeEffect r w = Some (tt, w') /\
    calls w' = calls w /\
    resolves w' (selectedLayerConfig r) c s /\
    memorizedForm w' = memorizedForm w /\
    pending w' = pending w.
Proof.
  intros Hr Hsame. eexists. split.
  - apply (indexPatternChangeEffect_idle _ Hr).
    intros p Hp. destruct Hsame as [Hnone|(p' & Hp' & Hid)]; [congruence|].
    rewrite Hp in Hp'. injection Hp' as <-. rewrite Hid. cbn.
    by rewrite String.eqb_refl.
  - cbn. repeat split; try done.
    + apply lookup_app_l_Some, Hr.
    + apply lookup_app_l_Some, Hr.
Qed.

(** Extra X5.  An index pattern without an id always counts as a change:
    the effect passes a configuration whose [indexPatternId] is the empty
    string, whose [indexPatternRefName] is the title of the pattern and
    whose [filters] are empty, whatever the table holds; the geospatial
    field of the configuration is left as it was. *)
Theorem X5_index_pattern_without_id r w c s p :
  resolves w (selectedLayerConfig r) c s ->
  Hooks.indexPattern (state r) = Some p ->
  IndexPattern.id p = None ->
  exists w' l' c' s',
    indexPatternChangeEffect r w = Some (tt, w') /\
    calls w' = calls w ++ [setSelectedLayerConfig l'] /\
    resolves w' l' c' s' /\
    Layer.id c' = Layer.id c /\
    Source.indexPatternId s' = "" /\
    Source.indexPatternRefName s' = IndexPattern.title p /\
    Source.filters s' = Some [] /\
    Source.geoFieldName s' = Source.geoFieldName s /\
    Source.geoFieldType s' = Source.geoFieldType s.
Proof.
  intros Hr Hp Hid.
  assert (Hne : strict_ne (IndexPattern.id p) (Source.indexPatternId s) = true)
    by (by rewrite Hid).
  pose proof (indexPatternChangeEffect_run _ Hr Hp Hne) as Hrun.
  assert (Hsw : switched p (memorizedForm w) s
                = Source.set_filters (Some [])
                    (Source.set_indexPatternRefName (IndexPattern.title p)
                       (Source.set_indexPatternId "" s))).
  { unfold switched, truthy_id. cbn. by rewrite Hid. }
  rewrite Hsw in Hrun.
  eexists _, _, _, _. split; [exact Hrun|].
  split; [reflexivity|]. split; [apply emission_resolves|]. done.
Qed.

(** Extra X6.  In every world the component can be in, the ids under which
    selections are memorized are not empty. *)
Theorem X6_memorized_ids_are_not_empty w :
  reachable w ->
  forall k m, memorizedForm w !! k = Some m -> k <> "".
Proof.
  intros Hw k m Hk ->.
  by rewrite (reachable_no_empty_id Hw) in Hk.
Qed.


(** *** Memorized selections *)

Lemma truthy_id_Some p i :
  IndexPattern.id p = Some i -> truthy i = true -> truthy_id (Some p) = Some i.
Proof. intros Hid Hi. unfold truthy_id. cbn. by rewrite Hid, Hi. Qed.

Lemma switched_indexPatternId p (form : gmap string (Memo.t Filter)) s :
  Source.indexPatternId (switched p form s) = default "" (IndexPattern.id p).
Proof.
  unfold switched. cbn zeta.
  destruct (truthy_id (Some p)) as [i|]; [|done].
  by destruct (form !! i ≫= @Memo.geoField Filter).
Qed.

Lemma switched_filters p i (form : gmap string (Memo.t Filter)) s :
  truthy_id (Some p) = Some i ->
  Source.filters (switched p form s)
  = Some (default [] (form !! i ≫= @Memo.filters Filter)).
Proof.
  intros Hi. unfold switched. rewrite Hi. cbn zeta.
  by destruct (form !! i ≫= @Memo.geoField Filter).
Qed.

Lemma switched_geoField p i (form : gmap string (Memo.t Filter)) s field :
  truthy_id (Some p) = Some i ->
  form !! i ≫= @Memo.geoField Filter = Some field ->
  Source.geoFieldName (switched p form s) = IndexPatternField.displayName field /\
  Source.geoFieldType (switched p form s) = IndexPatternField.type field.
Proof. intros Hi Hf. unfold switched. rewrite Hi. cbn zeta. by rewrite Hf. Qed.

Lemma strict_ne_Some i j : i <> j -> strict_ne (Some i) j = true.
Proof.
  intros Hne. cbn. apply negb_true_iff, not_true_iff_false.
  by rewrite String.eqb_eq.
Qed.

(** The table after [memorize] under a truthy id. *)
Lemma memorized_form r update w i :
  truthy_id (Hooks.indexPattern (state r)) = Some i ->
  memorizedForm (memorized r update w)
  = <[i := update (memorizedForm w !! i)]> (memorizedForm w).
Proof. intros Hi. unfold memorized. by rewrite Hi. Qed.

Lemma memorized_form_none r update w :
  truthy_id (Hooks.indexPattern (state r)) = None ->
  memorizedForm (memorized r update w) = memorizedForm w.
Proof. intros Hi. unfold memorized. by rewrite Hi. Qed.

(** The effect in a render whose index pattern has the truthy id [i], other
    than the id of the configuration. *)
Lemma change_back_run r w c s p i :
  resolves w (selectedLayerConfig r) c s ->
  Hooks.indexPattern (state r) = Some p ->
  truthy_id (Some p) = Some i ->
  IndexPattern.id p = Some i ->
  i <> Source.indexPatternId s ->
  indexPatternChangeEffect r w
  = Some (tt, emission w c (switched p (memorizedForm w) s)).
Proof.
  intros Hr Hp Hi Hid Hne. apply (indexPatternChangeEffect_run _ Hr Hp).
  rewrite Hid. by apply strict_ne_Some.
Qed.



(** Extra X9.  Memorizing one half of a selection keeps the other half:
    [onGeoFieldChange] replaces the memorized field of the selected index
    pattern and keeps its memorized filters, [onFiltersUpdated] replaces the
    memorized filters and keeps the memorized field; the entries of the
    other index patterns are left as they were, and nothing is memorized
    when the index pattern is absent or has no id or an empty id. *)
Theorem X9_memorizing_keeps_the_other_half r w c s :
  resolves w (selectedLayerConfig r) c s ->
  (forall field, exists w1,
     onGeoFieldChange r (Some field) w = Some (tt, w1) /\
     (forall i, truthy_id (Hooks.indexPattern (state r)) = Some i ->
        memorizedForm w1 !! i
        = Some (Memo.mk (memorizedForm w !! i ≫= @Memo.filters Filter) (Some field)) /\
        forall k, k <> i -> memorizedForm w1 !! k = memorizedForm w !! k) /\
     (truthy_id (Hooks.indexPattern (state r)) = None ->
        memorizedForm w1 = memorizedForm w)) /\
  (forall filters, exists w1,
     onFiltersUpdated r filters w = Some (tt, w1) /\
     (forall i, truthy_id (Hooks.indexPattern (state r)) = Some i ->
        memorizedForm w1 !! i
        = Some (Memo.mk (Some filters) (memorizedForm w !! i ≫= @Memo.geoField Filter)) /\
        forall k, k <> i -> memorizedForm w1 !! k = memorizedForm w !! k) /\
     (truthy_id (Hooks.indexPattern (state r)) = None ->
        memorizedForm w1 = memorizedForm w)).
Proof.
  intros Hr. split.
  - intros field.
    pose proof (@handle_run r (GeoFieldChange (Some field)) w c s _ Hr eq_refl) as Hrun.
    cbn [handle afterwards before] in Hrun.
    eexists. split; [exact Hrun|]. split.
    + intros i Hi. erewrite memorized_form by eassumption. cbn. split.
      * by rewrite lookup_insert_eq.
      * intros k Hk. by rewrite lookup_insert_ne.
    + intros Hi. by erewrite memorized_form_none by eassumption.
  - intros filters.
    pose proof (@handle_run r (FiltersUpdated filters) w c s _ Hr eq_refl) as Hrun.
    cbn [handle afterwards before] in Hrun.
    eexists. split; [exact Hrun|]. split.
    + intros i Hi. erewrite memorized_form by eassumption. cbn. split.
      * by rewrite lookup_insert_eq.
      * intros k Hk. by rewrite lookup_insert_ne.
    + intros Hi. by erewrite memorized_form_none by eassumption.
Qed.


Lemma memorized_truthy_own (form : gmap string (Memo.t Filter)) k m :
  form !! k = Some m -> memorized_truthy form k = true.
Proof. intros Hk. unfold memorized_truthy. rewrite Hk. reflexivity. Qed.

Lemma memorized_truthy_inherited (form : gmap string (Memo.t Filter)) k :
  k ∈ objectPrototypeNames -> memorized_truthy form k = true.
Proof.
  intros Hk. unfold memorized_truthy.
  rewrite (bool_decide_eq_true_2 _ Hk). by rewrite orb_true_r.
Qed.

Lemma memorized_truthy_false (form : gmap string (Memo.t Filter)) k :
  form !! k = None -> k ∉ objectPrototypeNames -> form !! "__proto__" = None ->
  memorized_truthy form k = false.
Proof.
  intros Hk Hnames Hproto. unfold memorized_truthy.
  rewrite Hk, Hproto, (bool_decide_eq_false_2 _ Hnames). reflexivity.
Qed.

Lemma memorizeEffect_run r w c s :
  resolves w (selectedLayerConfig r) c s ->
  memorizeEffect r w =
    Some (tt,
          match truthy_id (Hooks.indexPattern (state r)) with
          | Some i =>
              if String.eqb i (Source.indexPatternId s) then
                if memorized_truthy (memorizedForm w) i then w
                else
                  set_memorizedForm
                    (<[i := Memo.mk (Source.filters s)
                               (find_field (Source.geoFieldName s)
                                  (geoFields (Hooks.indexPattern (state r))))]>
                       (memorizedForm w)) w
              else w
          | None => w
          end).
Proof.
  intros Hr. unfold memorizeEffect.
  destruct (truthy_id (Hooks.indexPattern (state r))) as [i|]; [|done].
  rewrite (read_config_run _ Hr).
  destruct (String.eqb i (Source.indexPatternId s)); [|done].
  unfold bind at 1. cbn [read_memorizedForm].
  destruct (memorized_truthy (memorizedForm w) i); [done|].
  unfold bind. by rewrite (selectedField_run _ Hr).
Qed.

(** Extra X10.  The memorization effect never overwrites: every entry of
    the table is kept as it is.  It writes at most the entry of the
    [indexPatternId] of the configuration, and only when the selected index
    pattern has that id and the id is not empty; it writes nothing for an id
    that names a member of [Object.prototype], which the table always reads
    as present.  For any other id with no entry, in a table whose prototype
    has not been replaced, the new entry holds the filters of the
    configuration and the selected field.  It changes nothing else, and
    running it again changes nothing at all. *)
Theorem X10_memorization_never_overwrites r w c s :
  resolves w (selectedLayerConfig r) c s ->
  exists w',
    memorizeEffect r w = Some (tt, w') /\
    heap w' = heap w /\ calls w' = calls w /\ pending w' = pending w /\
    (forall k m, memorizedForm w !! k = Some m -> memorizedForm w' !! k = Some m) /\
    (forall k, k <> Source.indexPatternId s ->
       memorizedForm w' !! k = memorizedForm w !! k) /\
    (truthy_id (Hooks.indexPattern (state r)) <> Some (Source.indexPatternId s) ->
       memorizedForm w' = memorizedForm w) /\
    (Source.indexPatternId s ∈ objectPrototypeNames ->
       memorizedForm w' = memorizedForm w) /\
    (truthy_id (Hooks.indexPattern (state r)) = Some (Source.indexPatternId s) ->
     memorizedForm w !! Source.indexPatternId s = None ->
     Source.indexPatternId s ∉ objectPrototypeNames ->
     memorizedForm w !! "__proto__" = None ->
       memorizedForm w' !! Source.indexPatternId s
       = Some (Memo.mk (Source.filters s)
                 (find_field (Source.geoFieldName s)
                    (geoFields (Hooks.indexPattern (state r)))))) /\
    memorizeEffect r w' = Some (tt, w').
Proof.
  intros Hr. rewrite (memorizeEffect_run _ Hr).
  destruct (truthy_id (Hooks.indexPattern (state r))) as [i|] eqn:Hi.
  - destruct (String.eqb_spec i (Source.indexPatternId s)) as [->|Hne].
    + destruct (memorized_truthy (memorizedForm w) (Source.indexPatternId s)) eqn:Hm.
      * eexists. split; [reflexivity|]. repeat split; try done.
        -- intros _ Hnone Hnames Hproto.
           by rewrite (memorized_truthy_false _ Hnone Hnames Hproto) in Hm.
        -- rewrite (memorizeEffect_run _ Hr), Hi, String.eqb_refl. by rewrite Hm.
      * assert (Hnone : memorizedForm w !! Source.indexPatternId s = None).
        { destruct (memorizedForm w !! Source.indexPatternId s) as [m|] eqn:Hl; [|done].
          by rewrite (memorized_truthy_own _ _ Hl) in Hm. }
        eexists. split; [reflexivity|]. cbn. repeat split; try done.
        -- intros k m Hk. rewrite lookup_insert_ne; [done|]. congruence.
        -- intros k Hk. by rewrite lookup_insert_ne.
        -- intros Hnames. by rewrite (memorized_truthy_inherited _ Hnames) in Hm.
        -- intros _ _ _ _. by rewrite lookup_insert_eq.
        -- set (w' := set_memorizedForm _ w).
           assert (Hr' : resolves w' (selectedLayerConfig r) c s) by exact Hr.
           rewrite (memorizeEffect_run _ Hr'), Hi, String.eqb_refl.
           erewrite memorized_truthy_own; [done|].
           unfold w'. cbn. by rewrite lookup_insert_eq.
    + eexists. split; [reflexivity|]. repeat split; try done.
      * intros [=]. done.
      * rewrite (memorizeEffect_run _ Hr), Hi.
        by destruct (String.eqb_spec i (Source.indexPatternId s)).
  - eexists. split; [reflexivity|]. repeat split; try done.
    by rewrite (memorizeEffect_run _ Hr), Hi.
Qed.

(** Extra X11.  What the comments of the component announce: the selection
    of a layer that is opened is memorized and restored when the index
    pattern is changed back and forth.  From a configuration of the index
    pattern [i] (not empty, not the name of a member of [Object.prototype],
    nothing memorized yet, the prototype of the table not replaced), after
    the memorization effect, a change to another index pattern and, once the parent has
    adopted the configuration passed up, a change back to [i]: the
    configuration passed up has [indexPatternId] [i], the filters of the
    configuration that was opened (none when it had no [filters]), and the
    geospatial field that was selected when there was one. *)
Theorem X11_opened_selection_survives_a_round_trip r w c s pA pB i b :
  resolves w (selectedLayerConfig r) c s ->
  Hooks.indexPattern (state r) = Some pA ->
  IndexPattern.id pA = Some i ->
  truthy i = true ->
  Source.indexPatternId s = i ->
  memorizedForm w !! i = None ->
  i ∉ objectPrototypeNames ->
  memorizedForm w !! "__proto__" = None ->
  IndexPattern.id pB = Some b ->
  b <> i ->
  exists w1 w2 l2 w3 l3 c3 s3,
    memorizeEffect r w = Some (tt, w1) /\
    indexPatternChangeEffect
      (Build_Render (selectedLayerConfig r)
         (Hooks.set_indexPattern (Some pB) (state r))) w1 = Some (tt, w2) /\
    calls w2 = calls w1 ++ [setSelectedLayerConfig l2] /\
    indexPatternChangeEffect (Build_Render l2 (state r)) w2 = Some (tt, w3) /\
    calls w3 = calls w2 ++ [setSelectedLayerConfig l3] /\
    resolves w3 l3 c3 s3 /\
    Layer.id c3 = Layer.id c /\
    Source.indexPatternId s3 = i /\
    Source.filters s3 = Some (default [] (Source.filters s)) /\
    (forall field,
       find_field (Source.geoFieldName s) (geoFields (Some pA)) = Some field ->
       Source.geoFieldName s3 = IndexPatternField.displayName field /\
       Source.geoFieldType s3 = IndexPatternField.type field).
Proof.
  intros Hr HpA HidA Hi Hs Hfresh Hnames Hproto HidB Hne.
  assert (HiA : truthy_id (Some pA) = Some i) by by apply truthy_id_Some.
  pose proof (memorizeEffect_run _ Hr) as Hrun1.
  rewrite HpA, HiA, Hs, String.eqb_refl in Hrun1.
  rewrite (memorized_truthy_false _ Hfresh Hnames Hproto) in Hrun1.
  set (w1 := set_memorizedForm _ w) in Hrun1.
  set (rB := Build_Render (selectedLayerConfig r)
               (Hooks.set_indexPattern (Some pB) (state r))).
  assert (Hr1 : resolves w1 (selectedLayerConfig rB) c s) by exact Hr.
  assert (Hrun2 : indexPatternChangeEffect rB w1
                  = Some (tt, emission w1 c (switched pB (memorizedForm w1) s))).
  { apply (indexPatternChangeEffect_run _ Hr1 (p:=pB)); [done|].
    rewrite HidB, Hs. by apply strict_ne_Some. }
  set (s2 := switched pB (memorizedForm w1) s) in *.
  set (w2 := emission w1 c s2) in *.
  set (r3 := Build_Render (S (length (heap w1))) (state r)).
  assert (Hr2 : resolves w2 (selectedLayerConfig r3)
                  (Layer.mk (Layer.id c) (length (heap w1))) s2)
    by apply emission_resolves.
  assert (Hrun3 : indexPatternChangeEffect r3 w2
                  = Some (tt, emission w2 (Layer.mk (Layer.id c) (length (heap w1)))
                                (switched pA (memorizedForm w2) s2))).
  { eapply change_back_run; try eassumption.
    unfold s2. rewrite switched_indexPatternId, HidB. cbn. congruence. }
  eexists w1, w2, (S (length (heap w1))), _, _, _, _.
  split; [exact Hrun1|]. split; [exact Hrun2|]. split; [reflexivity|].
  split; [exact Hrun3|]. split; [reflexivity|].
  split; [apply emission_resolves|]. split; [reflexivity|].
  assert (Hform : memorizedForm w2 !! i
                  = Some (Memo.mk (Source.filters s)
                            (find_field (Source.geoFieldName s) (geoFields (Some pA))))).
  { unfold w2, w1. cbn. by rewrite lookup_insert_eq. }
  split; [by rewrite switched_indexPatternId, HidA|].
  split.
  - erewrite switched_filters by eassumption. by rewrite Hform.
  - intros field Hfield. eapply switched_geoField; [eassumption|].
    by rewrite Hform.
Qed.


(** *** The selected field and the options shown *)

Lemma accepted_type t :
  negb (Z.eqb (indexOf acceptedFieldTypes t) (-1)) = true
  <-> t = "geo_point" \/ t = "geo_shape".
Proof.
  unfold indexOf, acceptedFieldTypes. cbn [indexOf_from].
  destruct (String.eqb_spec "geo_point" t) as [<-|H1].
  - split; [by left|reflexivity].
  - destruct (String.eqb_spec "geo_shape" t) as [<-|H2].
    + split; [by right|reflexivity].
    + split; [intros Hf; vm_compute in Hf; discriminate|].
      intros [?|?]; congruence.
Qed.

Lemma geoFields_spec p field :
  In field (default [] (geoFields (Some p)))
  <-> In field (IndexPattern.fields p) /\
      (IndexPatternField.type field = "geo_point" \/
       IndexPatternField.type field = "geo_shape").
Proof.
  change (default [] (geoFields (Some p)))
    with (List.filter
            (fun field =>
               negb (Z.eqb (indexOf acceptedFieldTypes (IndexPatternField.type field)) (-1)))
            (IndexPattern.fields p)).
  rewrite filter_In. by rewrite <- accepted_type.
Qed.

(** Extra X12.  The selected field, when there is one, is a field of the
    resolved index pattern, of type geo_point or geo_shape, whose [name] is
    the [geoFieldName] of the configuration; there is none exactly when no
    geo_point or geo_shape field of the index pattern has that name (in
    particular when there is no index pattern). *)
Theorem X12_selected_field_is_a_geo_field r w c s :
  resolves w (selectedLayerConfig r) c s ->
  exists selected,
    selectedField r w = Some (selected, w) /\
    (forall field, selected = Some field ->
       exists p,
         Hooks.indexPattern (state r) = Some p /\
         field ∈ IndexPattern.fields p /\
         IndexPatternField.name field = Source.geoFieldName s /\
         (IndexPatternField.type field = "geo_point" \/
          IndexPatternField.type field = "geo_shape")) /\
    (selected = None <->
       forall p field,
         Hooks.indexPattern (state r) = Some p ->
         field ∈ IndexPattern.fields p ->
         IndexPatternField.type field = "geo_point" \/
         IndexPatternField.type field = "geo_shape" ->
         IndexPatternField.name field <> Source.geoFieldName s).
Proof.
  intros Hr. eexists. split; [by eapply selectedField_run|].
  destruct (Hooks.indexPattern (state r)) as [p|]; cbn.
  - split.
    + intros field Hfind. apply find_some in Hfind as [Hin Hname].
      apply (geoFields_spec p) in Hin as [Hin Htype].
      exists p. repeat split; try done.
      * by apply list_elem_of_In.
      * by apply String.eqb_eq.
    + split.
      * intros Hnone p' field [= <-] Hin Htype Hname.
        assert (Hgeo : In field (default [] (geoFields (Some p)))).
        { apply geoFields_spec. split; [by apply list_elem_of_In|done]. }
        pose proof (find_none _ _ Hnone _ Hgeo) as Hneq. cbn in Hneq.
        rewrite Hname, String.eqb_refl in Hneq. done.
      * intros Hall.
        destruct (List.find _ _) as [field|] eqn:Hfind; [|done].
        apply find_some in Hfind as [Hin Hname].
        apply (geoFields_spec p) in Hin as [Hin Htype].
        apply String.eqb_eq in Hname.
        by destruct (Hall p field eq_refl ltac:(by apply list_elem_of_In) Htype).
  - split; [done|]. split; [done|]. done.
Qed.

(** Extra X13.  The option shown as selected in the combo box of geospatial
    fields is one of the options the combo box offers; there is at most one,
    and none exactly when no field is selected. *)
Theorem X13_selected_option_is_offered geoFieldName fields :
  let selected := find_field geoFieldName fields in
  (forall o, o ∈ formatFieldToComboBox selected -> o ∈ formatFieldsToComboBox fields) /\
  length (formatFieldToComboBox selected) <= 1 /\
  (formatFieldToComboBox selected = [] <-> selected = None).
Proof.
  cbn zeta. destruct fields as [fields|]; cbn.
  - destruct (List.find _ fields) as [field|] eqn:Hfind; cbn.
    + split; [|split; [lia|done]].
      intros o ->%list_elem_of_singleton.
      apply find_some in Hfind as [Hin _].
      apply list_elem_of_In. apply in_map_iff. eauto.
    + split; [by intros o ?%elem_of_nil|]. split; [lia|done].
  - split; [by intros o ?%elem_of_nil|]. split; [lia|done].
Qed.

(** Extra X14.  The tooltip fields survive a round trip through the combo
    box: the options shown as selected for the configuration passed by
    [onTooltipSelectionChange] have the labels of the options that were
    picked, in order; and passing the options shown for a configuration back
    to [onTooltipSelectionChange] leaves its tooltip fields as they are (an
    absent list becoming the empty list). *)
Theorem X14_tooltip_selection_round_trip r w c s :
  resolves w (selectedLayerConfig r) c s ->
  (forall options, exists w' l' c' s',
     onTooltipSelectionChange r options w = Some (tt, w') /\
     resolves w' l' c' s' /\
     ComboOption.label <$> formatTooltipFieldsToComboBox (Source.tooltipFields s')
     = ComboOption.label <$> options) /\
  (exists w' l' c' s',
     onTooltipSelectionChange r
       (formatTooltipFieldsToComboBox (Source.tooltipFields s)) w = Some (tt, w') /\
     resolves w' l' c' s' /\
     Source.tooltipFields s' = Some (default [] (Source.tooltipFields s))).
Proof.
  intros Hr. split.
  - intros options.
    pose proof (@handle_run r (TooltipSelectionChange options) w c s _ Hr eq_refl) as Hrun.
    cbn [handle afterwards before] in Hrun.
    eexists _, _, _, _. split; [exact Hrun|]. split; [apply emission_resolves|].
    cbn [formatTooltipFieldsToComboBox Source.tooltipFields Source.set_tooltipFields].
    clear Hrun. induction options as [|o options IH]; [done|]. cbn. by f_equal.
  - pose proof (@handle_run r
                  (TooltipSelectionChange
                     (formatTooltipFieldsToComboBox (Source.tooltipFields s)))
                  w c s _ Hr eq_refl) as Hrun.
    cbn [handle afterwards before] in Hrun.
    eexists _, _, _, _. split; [exact Hrun|]. split; [apply emission_resolves|].
    clear Hrun. cbn. f_equal.
    destruct (Source.tooltipFields s) as [fields|]; [|done]. cbn.
    induction fields as [|field fields IH]; [done|]. cbn. by f_equal.
Qed.

(** Extra X15.  The [onChange] of the combo box of geospatial fields: an
    empty selection (the combo box has been cleared) while an index pattern
    is resolved is a TypeError, nothing is passed up; a label that the index
    pattern resolves to no field, or any selection while there is no index
    pattern, leaves everything as it was; a label resolved to a field passes
    a configuration with the [displayName] and [type] of that field. *)
Theorem X15_geo_field_combo_change getFieldByName r w c s :
  resolves w (selectedLayerConfig r) c s ->
  (forall p, Hooks.indexPattern (state r) = Some p ->
     onGeoFieldComboChange getFieldByName r [] w = None) /\
  (forall p first rest,
     Hooks.indexPattern (state r) = Some p ->
     getFieldByName p (ComboOption.label first) = None ->
     onGeoFieldComboChange getFieldByName r (first :: rest) w = Some (tt, w)) /\
  (forall option,
     Hooks.indexPattern (state r) = None ->
     onGeoFieldComboChange getFieldByName r option w = Some (tt, w)) /\
  (forall p first rest field,
     Hooks.indexPattern (state r) = Some p ->
     getFieldByName p (ComboOption.label first) = Some field ->
     exists w' l' c' s',
       onGeoFieldComboChange getFieldByName r (first :: rest) w = Some (tt, w') /\
       calls w' = calls w ++ [setSelectedLayerConfig l'] /\
       resolves w' l' c' s' /\
       Source.geoFieldName s' = IndexPatternField.displayName field /\
       Source.geoFieldType s' = IndexPatternField.type field).
Proof.
  intros Hr. unfold onGeoFieldComboChange. repeat split.
  - intros p ->. done.
  - intros p first rest -> Hget. cbn zeta. by rewrite Hget.
  - intros option ->. done.
  - intros p first rest field -> Hget. cbn zeta. rewrite Hget.
    pose proof (@handle_run r (GeoFieldChange (Some field)) w c s _ Hr eq_refl) as Hrun.
    cbn [handle] in Hrun.
    eexists _, _, _, _. split; [exact Hrun|].
    split; [apply handled_calls|]. split; [apply handled_resolves|]. done.
Qed.


(** *** The document count that is typed *)

Lemma parseInt_cases value : parseInt value = NaN \/ exists z, parseInt value = of_Z z.
Proof.
  unfold parseInt.
  destruct (match trim_start value with
            | String "-" rest => ((-1)%Z, rest)
            | String "+" rest => (1%Z, rest)
            | _ => (1%Z, trim_start value)
            end) as [sign digits].
  destruct (parse_digits digits None) as [m|]; eauto.
Qed.

Lemma js_lt_of_Z a b : js_lt (of_Z a) (of_Z b) = true <-> (a < b)%Z.
Proof.
  rewrite js_lt_less. unfold of_Z. split.
  - inversion 1; subst. by rewrite Zlt_Qlt.
  - intros Hlt. constructor. by rewrite <- Zlt_Qlt.
Qed.

Lemma of_Z_inj a b : of_Z a = of_Z b -> a = b.
Proof. unfold of_Z, inject_Z. by intros [=]. Qed.

(** Extra X16.  For a text that [parseInt] reads as NaN or as an integer of
    magnitude at most 2^53 (an integer a double holds exactly),
    [onDocumentRequestNumberChange] writes that value, a fraction being cut
    to its integer part by [parseInt]; in a render of the configuration it
    passes, the validation effect flags the count exactly when the text was
    read as an integer below 1 or above 10000. *)
Theorem X16_typed_count_is_flagged_when_out_of_range r value w c s :
  resolves w (selectedLayerConfig r) c s ->
  (parseInt value = NaN \/
   exists z, parseInt value = of_Z z /\ (- 2 ^ 53 <= z <= 2 ^ 53)%Z) ->
  exists w1 l' c' s',
    onDocumentRequestNumberChange r value w = Some (tt, w1) /\
    calls w1 = calls w ++ [setSelectedLayerConfig l'] /\
    resolves w1 l' c' s' /\
    Source.documentRequestNumber s' = parseInt value /\
    forall st,
    exists w2,
      validateEffect (Build_Render l' st) w1 = Some (tt, w2) /\
      (Hooks.hasInvalidRequestNumber (pending w2) = true
       <-> exists z, parseInt value = of_Z z /\ (z < 1 \/ 10000 < z)%Z).
Proof.
  intros Hr Hsafe.
  pose proof (@handle_run r (DocumentRequestNumberChange value) w c s _ Hr eq_refl) as Hrun.
  cbn [handle afterwards before] in Hrun.
  set (s' := Source.set_documentRequestNumber (parseInt value) s) in *.
  pose proof (emission_resolves w c s') as Hr1.
  eexists _, _, _, _.
  split; [exact Hrun|]. split; [reflexivity|]. split; [exact Hr1|].
  split; [reflexivity|].
  intros st.
  set (r1 := Build_Render (S (length (heap w))) st).
  assert (Hr1' : resolves (emission w c s') (selectedLayerConfig r1)
                   (Layer.mk (Layer.id c) (length (heap w))) s') by exact Hr1.
  eexists. split; [exact (validateEffect_run _ Hr1')|].
  unfold s'.
  cbn [pending set_pending Hooks.hasInvalidRequestNumber
       Hooks.set_hasInvalidRequestNumber Source.documentRequestNumber
       Source.set_documentRequestNumber].
  unfold js_gt.
  destruct Hsafe as [Hnan|(z & Hz & _)].
  - rewrite Hnan. cbn. split; [intros [=]|].
    intros (z & Hz & _). unfold of_Z in Hz. discriminate Hz.
  - rewrite Hz, orb_true_iff, !js_lt_of_Z. split.
    + intros H. by exists z.
    + intros (z' & Hz' & H). by apply of_Z_inj in Hz' as ->.
Qed.

(** *** The order of the groups of tooltip fields *)

Lemma entries_named {A} (groups : list (string * A)) :
  (forall entry, entry ∈ groups -> array_index entry.1 = None) ->
  entries groups = groups.
Proof.
  intros Hnamed. unfold entries.
  assert (Hindexed : omap (fun g : string * A => (fun n => (n, g)) <$> array_index g.1) groups = []).
  { induction groups as [|g groups IH]; [done|]. cbn.
    rewrite (Hnamed g) by left. cbn. apply IH.
    intros g' Hg'. apply Hnamed. by right. }
  assert (Hrest : List.filter
                    (fun g : string * A => negb (bool_decide (is_Some (array_index g.1)))) groups
                  = groups).
  { clear Hindexed. induction groups as [|g groups IH]; [done|]. cbn.
    rewrite (Hnamed g) by left. cbn. f_equal. apply IH.
    intros g' Hg'. apply Hnamed. by right. }
  rewrite Hindexed, Hrest. reflexivity.
Qed.

Section GroupOrder.
Context {A : Type} (key : A -> string).

Lemma groupBy_keys_snoc (l : list A) x :
  (groupBy key (l ++ [x])).*1
  = (groupBy key l).*1
    ++ (if decide (key x ∈ (groupBy key l).*1) then [] else [key x]).
Proof.
  destruct (groupBy_grouped key l) as (Hnd & _).
  rewrite groupBy_snoc, group_add_extend by done.
  rewrite fmap_app. f_equal.
  - rewrite <- list_fmap_compose. apply list_fmap_ext. intros _ g _. apply extend_key.
  - by destruct (decide _).
Qed.

(** The keys of [groupBy key l] are in the order in which they first occur
    in [l]. *)
Lemma groupBy_keys_order (l : list A) i j ki kj :
  i < j ->
  (groupBy key l).*1 !! i = Some ki ->
  (groupBy key l).*1 !! j = Some kj ->
  exists n x,
    l !! n = Some x /\ key x = ki /\
    forall m y, l !! m = Some y -> key y = kj -> n < m.
Proof.
  revert i j ki kj. induction l as [|x l IH] using rev_ind; intros i j ki kj Hij Hi Hj.
  - done.
  - destruct (groupBy_grouped key l) as (Hnd & Hkeys & _).
    rewrite groupBy_keys_snoc in Hi, Hj.
    assert (Hold : forall i j ki kj, i < j ->
              (groupBy key l).*1 !! i = Some ki -> (groupBy key l).*1 !! j = Some kj ->
              key x <> kj \/ key x ∈ (groupBy key l).*1 ->
              exists n y, (l ++ [x]) !! n = Some y /\ key y = ki /\
                forall m z, (l ++ [x]) !! m = Some z -> key z = kj -> n < m).
    { intros i' j' ki' kj' Hij' Hi' Hj' Hx.
      destruct (IH _ _ _ _ Hij' Hi' Hj') as (n & y & Hn & Hy & Hfirst).
      exists n, y. split; [by apply lookup_app_l_Some|]. split; [done|].
      intros m z Hm Hz.
      apply lookup_app_Some in Hm as [Hm|[Hlen Hm]]; [by eapply Hfirst|].
      apply lookup_lt_Some in Hn. lia. }
    destruct (decide (key x ∈ (groupBy key l).*1)) as [Hin|Hnin].
    + rewrite app_nil_r in Hi, Hj. eapply Hold; eauto.
    + apply lookup_app_Some in Hj as [Hj|[Hlen Hj]].
      * assert (Hi' : (groupBy key l).*1 !! i = Some ki).
        { apply lookup_lt_Some in Hj.
          rewrite lookup_app_l in Hi by lia. done. }
        eapply Hold; eauto. left. intros <-.
        apply Hnin. by eapply list_elem_of_lookup_2.
      * assert (Hjlen : j - length (groupBy key l).*1 = 0).
        { apply lookup_lt_Some in Hj. cbn in Hj. lia. }
        assert (Hi' : (groupBy key l).*1 !! i = Some ki)
          by (rewrite lookup_app_l in Hi by lia; done).
        assert (kj = key x) as ->.
        { rewrite Hjlen in Hj. cbn in Hj. congruence. }
        assert (Hki : ki ∈ (groupBy key l).*1) by by eapply list_elem_of_lookup_2.
        apply Hkeys in Hki as (y & Hy & Hkey).
        apply list_elem_of_lookup in Hy as [n Hn].
        exists n, y. split; [by apply lookup_app_l_Some|]. split; [done|].
        intros m z Hm Hz.
        apply lookup_app_Some in Hm as [Hm|[Hlen' Hm]].
        -- exfalso. apply Hnin, Hkeys. exists z. split; [|done].
           by eapply list_elem_of_lookup_2.
        -- apply lookup_lt_Some in Hn. lia.
Qed.

End GroupOrder.

(** Extra X17.  When no field type is an array-index key (the field types
    of the host are words), the groups of [tooltipFieldsOptions] come in the
    order in which their types first occur among the fields of the index
    pattern: of two groups, the earlier one has a field that comes before
    every field of the later one. *)
Theorem X17_tooltip_groups_in_order_of_first_occurrence p i j gi gj :
  (forall field, field ∈ IndexPattern.fields p ->
     array_index (IndexPatternField.type field) = None) ->
  i < j ->
  tooltipFieldsOptions (Some p) !! i = Some gi ->
  tooltipFieldsOptions (Some p) !! j = Some gj ->
  exists n field,
    IndexPattern.fields p !! n = Some field /\
    IndexPatternField.type field = OptionGroup.label gi /\
    forall m other,
      IndexPattern.fields p !! m = Some other ->
      IndexPatternField.type other = OptionGroup.label gj -> n < m.
Proof.
  intros Hnamed Hij Hi Hj.
  destruct (groupBy_grouped IndexPatternField.type (IndexPattern.fields p))
    as (_ & Hkeys & _).
  rewrite tooltipFieldsOptions_entries, entries_named in Hi, Hj.
  - rewrite list_lookup_fmap in Hi, Hj.
    destruct (groupBy IndexPatternField.type (IndexPattern.fields p) !! i)
      as [ei|] eqn:Hei; [|done].
    destruct (groupBy IndexPatternField.type (IndexPattern.fields p) !! j)
      as [ej|] eqn:Hej; [|done].
    cbn in Hi, Hj. injection Hi as <-. injection Hj as <-. cbn.
    eapply groupBy_keys_order; [exact Hij| |].
    + by rewrite list_lookup_fmap, Hei.
    + by rewrite list_lookup_fmap, Hej.
  - intros entry Hentry.
    assert (Hk : entry.1 ∈ (groupBy IndexPatternField.type (IndexPattern.fields p)).*1)
      by by apply list_elem_of_fmap_2.
    apply Hkeys in Hk as (field & Hfield & <-). by apply Hnamed.
  - intros entry Hentry.
    assert (Hk : entry.1 ∈ (groupBy IndexPatternField.type (IndexPattern.fields p)).*1)
      by by apply list_elem_of_fmap_2.
    apply Hkeys in Hk as (field & Hfield & <-). by apply Hnamed.
Qed.


(** *** Choosing a field enables the update *)

(** Extra X18.  Choosing a geospatial field whose [displayName] is its
    [name], and which is the only geospatial field of that name, makes it
    the selected field of the next render. *)
Theorem X18_selection_comes_back_when_names_agree r w c s p fields field :
  resolves w (selectedLayerConfig r) c s ->
  Hooks.indexPattern (state r) = Some p ->
  geoFields (Some p) = Some fields ->
  field ∈ fields ->
  IndexPatternField.displayName field = IndexPatternField.name field ->
  (forall other, other ∈ fields ->
     IndexPatternField.name other = IndexPatternField.name field -> other = field) ->
  exists w' l',
    onGeoFieldChange r (Some field) w = Some (tt, w') /\
    calls w' = calls w ++ [setSelectedLayerConfig l'] /\
    selectedField (rerender r l') w' = Some (Some field, w').
Proof.
  intros Hr Hp Hgeo Hin Hname Huniq.
  pose proof (@handle_run r (GeoFieldChange (Some field)) w c s _ Hr eq_refl) as Hrun.
  cbn [handle] in Hrun.
  eexists _, _. split; [exact Hrun|].
  split; [apply handled_calls|].
  erewrite selectedField_run
    by (cbn [rerender selectedLayerConfig]; apply handled_resolves).
  cbn [rerender state]. rewrite Hp, Hgeo. cbn. rewrite Hname.
  by rewrite (find_unique_name Hin Huniq).
Qed.

(** Extra X19.  With a valid document count, choosing such a field enables
    the update action: in the next render the effect passes [false] to
    [setIsUpdateDisabled]. *)
Theorem X19_choosing_a_field_enables_the_update r w c s p fields field :
  resolves w (selectedLayerConfig r) c s ->
  Hooks.indexPattern (state r) = Some p ->
  geoFields (Some p) = Some fields ->
  field ∈ fields ->
  IndexPatternField.displayName field = IndexPatternField.name field ->
  (forall other, other ∈ fields ->
     IndexPatternField.name other = IndexPatternField.name field -> other = field) ->
  Hooks.hasInvalidRequestNumber (state r) = false ->
  exists w1 l' w2,
    onGeoFieldChange r (Some field) w = Some (tt, w1) /\
    calls w1 = calls w ++ [setSelectedLayerConfig l'] /\
    updateDisabledEffect (rerender r l') w1 = Some (tt, w2) /\
    calls w2 = calls w1 ++ [setIsUpdateDisabled false].
Proof.
  intros Hr Hp Hgeo Hin Hname Huniq Hvalid.
  pose proof (@handle_run r (GeoFieldChange (Some field)) w c s _ Hr eq_refl) as Hrun.
  cbn [handle] in Hrun.
  eexists _, _, _. split; [exact Hrun|].
  split; [apply handled_calls|].
  erewrite updateDisabledEffect_run
    by (cbn [rerender selectedLayerConfig]; apply handled_resolves).
  split; [reflexivity|].
  cbn [rerender state calls set_calls]. rewrite Hp, Hgeo, Hvalid. cbn.
  rewrite Hname, (find_unique_name Hin Huniq). reflexivity.
Qed.

End Properties.

(** ** Examples and claims settled on concrete configurations *)

(** *** [parseInt] and the comparisons on examples *)

Example parseInt_digits : parseInt "250" = of_Z 250.
Proof. reflexivity. Qed.

Example parseInt_prefix : parseInt "  -12px" = of_Z (-12).
Proof. reflexivity. Qed.

Example parseInt_fraction : parseInt "1.5" = of_Z 1.
Proof. reflexivity. Qed.

Example parseInt_exponent : parseInt "1e5" = of_Z 1.
Proof. reflexivity. Qed.

Example parseInt_letters : parseInt "abc" = NaN.
Proof. reflexivity. Qed.

Example parseInt_sign_only : parseInt "-" = NaN.
Proof. reflexivity. Qed.

Example js_lt_nan : js_lt NaN (of_Z 1) = false /\ js_gt NaN (of_Z 10000) = false.
Proof. split; reflexivity. Qed.

Example js_lt_zero : js_lt (of_Z 0) (of_Z 1) = true.
Proof. reflexivity. Qed.

Example js_lt_half : js_lt (Finite (1 # 2)) (of_Z 1) = true.
Proof. reflexivity. Qed.

(** *** [tooltipFieldsOptions] on examples *)

Example tooltipFieldsOptions_logs :
  tooltipFieldsOptions
    (Some (IndexPattern.mk (Some "ip-1") "logs-*"
             [status_field; location_field;
              IndexPatternField.mk "bytes" "" "number"]))
  = [OptionGroup.mk "number" [ComboOption.mk "status"; ComboOption.mk "bytes"];
     OptionGroup.mk "geo_point" [ComboOption.mk "location"]].
Proof. reflexivity. Qed.

(** Keys that are array indices come first, in ascending order. *)
Example entries_order :
  entries [("b", 1); ("10", 2); ("a", 3); ("2", 4); ("01", 5)]
  = [("2", 4); ("10", 2); ("b", 1); ("a", 3); ("01", 5)].
Proof. reflexivity. Qed.

(** *** Switching the index pattern back and forth *)

(** The filters set while "ip-1" was selected are memorized; selecting
    "ip-2" empties the filters of the configuration; selecting "ip-1" again
    brings the memorized filters and the memorized field back. *)
Example filters_are_restored :
  exists w,
    (let! _ := memorizeEffect logs_render in
     let! _ := onFiltersUpdated logs_render ["status:200"] in
     let! _ := indexPatternChangeEffect
                 (Build_Render 3 (Hooks.mk (Some metrics_pattern) false true)) in
     indexPatternChangeEffect
       (Build_Render 5 (Hooks.mk (Some logs_pattern) false true)))
      logs_world = Some (tt, w) /\
    (@Source.filters string <$> (snd <$> config_at w 3)) = Some (Some ["status:200"]) /\
    (@Source.indexPatternId string <$> (snd <$> config_at w 5)) = Some "ip-2" /\
    (@Source.filters string <$> (snd <$> config_at w 5)) = Some (Some []) /\
    (@Source.indexPatternId string <$> (snd <$> config_at w 7)) = Some "ip-1" /\
    (@Source.filters string <$> (snd <$> config_at w 7)) = Some (Some ["status:200"]) /\
    (@Source.geoFieldName string <$> (snd <$> config_at w 7)) = Some "location" /\
    calls w = [setSelectedLayerConfig 3; setSelectedLayerConfig 5; setSelectedLayerConfig 7].
Proof. eexists. split; [vm_compute; reflexivity|]. vm_compute. repeat split. Qed.

(** Claim C5, on an index pattern whose geospatial field has a
    [displayName] other than its [name]: the field is one of [geoFields],
    [onGeoFieldChange] writes its [displayName] into [geoFieldName], and the
    selected field derived from the configuration it passed, looked up by
    [name], is absent; the selection does not come back. *)
Theorem C5_selection_is_lost_for_a_shortened_name :
  geoFields (Hooks.indexPattern (state dotted_render)) = Some [dotted_field] /\
  exists w' l' c' s',
    onGeoFieldChange dotted_render (Some dotted_field) dotted_world = Some (tt, w') /\
    calls w' = [setSelectedLayerConfig l'] /\
    resolves w' l' c' s' /\
    Source.geoFieldName s' = "g.location" /\
    selectedField (rerender dotted_render l') w' = Some (None, w') /\
    selectedField (rerender dotted_render l') w' ≠ Some (Some dotted_field, w').
Proof.
  split; [reflexivity|].
  assert (Hr : resolves dotted_world (selectedLayerConfig dotted_render)
                 (Layer.mk "layer-2" 0)
                 (Source.mk "ip-3" "flights-*" "" "" (of_Z 1000) (Some []) (Some []) true false))
    by (split; reflexivity).
  pose proof (@handle_run _ dotted_render (GeoFieldChange (Some dotted_field))
                dotted_world _ _ _ Hr eq_refl) as Hrun.
  cbn [handle] in Hrun.
  eexists _, 3, _, _. split; [exact Hrun|].
  split; [exact (handled_calls _ _ _ _ _)|].
  split; [exact (handled_resolves _ _ _ _ _)|].
  split; [reflexivity|].
  assert (Hsel : forall w0 w1 : @World string,
            w0 = w1 -> Some (@None IndexPatternField.t, w0) ≠ Some (Some dotted_field, w1))
    by (intros w0 w1 _ [=]).
  erewrite selectedField_run
    by (cbn [rerender selectedLayerConfig]; exact (handled_resolves _ _ _ _ _)).
  split; [reflexivity|]. by apply Hsel.
Qed.

(** Claim C7 as stated fails: a change delivered to [onGeoFieldChange] with
    an absent field makes no call of [setSelectedLayerConfig]. *)
Lemma C7_absent_field_passes_nothing :
  ~ (forall e : Event,
       exists w' l',
         handle logs_render e logs_world = Some (tt, w') /\
         calls w' = calls logs_world ++ [setSelectedLayerConfig l']).
Proof.
  intros H. destruct (H (GeoFieldChange None)) as (w' & l' & Hrun & Hcalls).
  cbn in Hrun. injection Hrun as <-. discriminate Hcalls.
Qed.

(** *** The theorems at the sample layer *)

(** The document count 1000 of the sample layer is not flagged. *)
Lemma C1_sample_count_is_valid :
  resolves logs_world (selectedLayerConfig logs_render) logs_layer logs_source /\
  exists w',
    validateEffect logs_render logs_world = Some (tt, w') /\
    Hooks.hasInvalidRequestNumber (pending w') = false.
Proof.
  assert (Hr : resolves logs_world (selectedLayerConfig logs_render) logs_layer logs_source)
    by (split; reflexivity).
  split; [exact Hr|].
  destruct (C1_invalid_exactly_outside_range logs_render Hr)
    as (w' & Hrun & _ & Hfinite & _).
  exists w'. split; [exact Hrun|].
  apply (Hfinite (inject_Z 1000) eq_refl). split; discriminate.
Defined.

(** With an index pattern, a selected field and a valid count, the update
    action of the sample layer is enabled. *)
Lemma C2_sample_update_is_enabled :
  resolves logs_world (selectedLayerConfig logs_render) logs_layer logs_source /\
  exists field disableUpdate,
    selectedField logs_render logs_world = Some (field, logs_world) /\
    updateDisabledEffect logs_render logs_world
      = Some (tt, set_calls (calls logs_world ++ [setIsUpdateDisabled disableUpdate])
                    logs_world) /\
    (Hooks.hasInvalidRequestNumber (state logs_render) = true -> disableUpdate = true).
Proof.
  assert (Hr : resolves logs_world (selectedLayerConfig logs_render) logs_layer logs_source)
    by (split; reflexivity).
  split; [exact Hr|].
  destruct (C2_update_disabled_exactly logs_render Hr)
    as (field & disableUpdate & Hfield & Hrun & _ & Hflag).
  exists field, disableUpdate. repeat split; assumption.
Defined.

(** Emptying the input of the document count. *)
Lemma C3_sample_empty_input :
  resolves logs_world (selectedLayerConfig logs_render) logs_layer logs_source /\
  parseInt "" = NaN /\
  exists w1 l' c' s',
    onDocumentRequestNumberChange logs_render "" logs_world = Some (tt, w1) /\
    resolves w1 l' c' s' /\
    Source.documentRequestNumber s' = NaN.
Proof.
  assert (Hr : resolves logs_world (selectedLayerConfig logs_render) logs_layer logs_source)
    by (split; reflexivity).
  split; [exact Hr|]. split; [reflexivity|].
  destruct (@C3_unparsable_count_is_not_flagged string logs_render "" logs_world
              logs_layer logs_source Hr eq_refl)
    as (_ & w1 & l' & c' & s' & Hrun & _ & Hr1 & Hnan & _).
  exists w1, l', c', s'. repeat split; try assumption; apply Hr1.
Defined.

(** Selecting "ip-2" on the sample layer, with nothing memorized for it. *)
Lemma C4_sample_switch_to_metrics :
  reachable logs_world /\
  resolves logs_world (selectedLayerConfig metrics_render) logs_layer logs_source /\
  Hooks.indexPattern (state metrics_render) = Some metrics_pattern /\
  IndexPattern.id metrics_pattern = Some "ip-2" /\
  "ip-2" ≠ Source.indexPatternId logs_source /\
  exists w' l' c' s',
    indexPatternChangeEffect metrics_render logs_world = Some (tt, w') /\
    calls w' = calls logs_world ++ [setSelectedLayerConfig l'] /\
    resolves w' l' c' s' /\
    Source.indexPatternId s' = "ip-2" /\
    Source.indexPatternRefName s' = "metrics-*" /\
    Source.filters s' = Some [].
Proof.
  assert (Hreach : reachable logs_world)
    by (apply reachable_mounted; split; reflexivity).
  assert (Hr : resolves logs_world (selectedLayerConfig metrics_render) logs_layer logs_source)
    by (split; reflexivity).
  assert (Hne : "ip-2" ≠ Source.indexPatternId logs_source) by discriminate.
  split; [exact Hreach|]. split; [exact Hr|]. split; [reflexivity|].
  split; [reflexivity|]. split; [exact Hne|].
  destruct (@C4_index_pattern_change_restores_memorized string metrics_render logs_world
              logs_layer logs_source metrics_pattern "ip-2" Hreach Hr eq_refl eq_refl Hne)
    as ((w' & l' & c' & s' & Hrun & Hcalls & Hr' & _ & Hid & Hname & _ & _ & Hnone & _) & _).
  exists w', l', c', s'.
  split; [exact Hrun|]. split; [exact Hcalls|]. split; [exact Hr'|].
  split; [exact Hid|]. split; [exact Hname|].
  apply Hnone. reflexivity.
Defined.

(** Updating the filters of the sample layer: one new configuration is
    passed, and the received one is still what it was. *)
Lemma C6_sample_filters_updated :
  resolves logs_world (selectedLayerConfig logs_render) logs_layer logs_source /\
  exists w' l' c' s',
    handle logs_render (FiltersUpdated ["status:200"]) logs_world = Some (tt, w') /\
    calls w' = calls logs_world ++ [setSelectedLayerConfig l'] /\
    heap logs_world !! l' = None /\
    resolves w' l' c' s' /\
    Source.filters s' = Some ["status:200"] /\
    Source.geoFieldName s' = Source.geoFieldName logs_source /\
    resolves w' (selectedLayerConfig logs_render) logs_layer logs_source.
Proof.
  assert (Hr : resolves logs_world (selectedLayerConfig logs_render) logs_layer logs_source)
    by (split; reflexivity).
  split; [exact Hr|].
  destruct (@C6_handlers_pass_fresh_copies string logs_render
              (FiltersUpdated ["status:200"]) logs_world logs_layer logs_source Hr)
    as [Hpassed _].
  destruct (Hpassed ltac:(discriminate))
    as (w' & l' & c' & s' & Hrun & Hcalls & _ & Hsame & Hr' & Hfresh & _ & _ & Hreflects & Hagree).
  exists w', l', c', s'.
  split; [exact Hrun|]. split; [exact Hcalls|]. split; [exact Hfresh|].
  split; [exact Hr'|]. split; [exact Hreflects|]. split; [|exact Hsame].
  symmetry. apply (Hagree Source.GeoFieldName).
  intros Hin. cbn in Hin. apply elem_of_cons in Hin as [Hin|Hin]; [discriminate Hin|].
  by apply elem_of_nil in Hin.
Defined.

(** Claim C6 as stated fails: [onGeoFieldChange] with an absent field
    passes no configuration, new or not, to [setSelectedLayerConfig]. *)
Lemma C6_absent_field_passes_no_copy :
  ~ (forall e : Event,
       exists w' l',
         handle logs_render e logs_world = Some (tt, w') /\
         setSelectedLayerConfig l' ∈ calls w' /\
         heap logs_world !! l' = None).
Proof.
  intros H. destruct (H (GeoFieldChange None)) as (w' & l' & Hrun & Hin & _).
  cbn in Hrun. injection Hrun as <-. cbn in Hin. by apply elem_of_nil in Hin.
Qed.

(** Typing 250 into the document count of the sample layer. *)
Lemma C7_sample_count_edit :
  resolves logs_world (selectedLayerConfig logs_render) logs_layer logs_source /\
  exists w' l' c' s',
    handle logs_render (DocumentRequestNumberChange "250") logs_world = Some (tt, w') /\
    calls w' = calls logs_world ++ [setSelectedLayerConfig l'] /\
    resolves w' l' c' s' /\
    Source.documentRequestNumber s' = of_Z 250.
Proof.
  assert (Hr : resolves logs_world (selectedLayerConfig logs_render) logs_layer logs_source)
    by (split; reflexivity).
  split; [exact Hr|].
  destruct (@C7_change_is_passed_up string logs_render
              (DocumentRequestNumberChange "250") logs_world logs_layer logs_source Hr)
    as [Hpassed _].
  destruct (Hpassed ltac:(discriminate))
    as (w' & l' & c' & s' & Hrun & Hcalls & Hr' & _ & Hreflects).
  exists w', l', c', s'.
  split; [exact Hrun|]. split; [exact Hcalls|]. split; [exact Hr'|exact Hreflects].
Defined.

(** Picking two tooltip fields on the sample layer. *)
Lemma C8_sample_two_tooltips :
  resolves logs_world (selectedLayerConfig logs_render) logs_layer logs_source /\
  exists w' l' c' s',
    onTooltipSelectionChange logs_render
      [ComboOption.mk "status"; ComboOption.mk "location"] logs_world = Some (tt, w') /\
    resolves w' l' c' s' /\
    Source.tooltipFields s' = Some ["status"; "location"].
Proof.
  assert (Hr : resolves logs_world (selectedLayerConfig logs_render) logs_layer logs_source)
    by (split; reflexivity).
  split; [exact Hr|].
  destruct (@C8_tooltip_fields_are_the_labels string logs_render
              [ComboOption.mk "status"; ComboOption.mk "location"]
              logs_world logs_layer logs_source Hr)
    as (w' & l' & c' & s' & fields & Hrun & _ & Hr' & Hfields & Heq & _).
  exists w', l', c', s'. split; [exact Hrun|]. split; [exact Hr'|].
  rewrite Hfields, Heq. reflexivity.
Defined.


(** *** The further properties at the sample layer *)

(** Toggling the bounding box calls [setSelectedLayerConfig] only. *)
Lemma X1_sample_toggle :
  exists w',
    perform logs_render (Handler (ToggleGeoBoundingBox true)) logs_world = Some (tt, w') /\
    exists made,
      calls w' = calls logs_world ++ made /\
      Forall (may_call (Filter:=string) (Handler (ToggleGeoBoundingBox true))) made.
Proof.
  assert (Hr : resolves logs_world (selectedLayerConfig logs_render) logs_layer logs_source)
    by (split; reflexivity).
  pose proof (@handle_run string logs_render (ToggleGeoBoundingBox true) logs_world
                logs_layer logs_source _ Hr eq_refl) as Hrun.
  eexists. split; [exact Hrun|].
  exact (@X1_who_calls_the_parent string logs_render
           (Handler (ToggleGeoBoundingBox true)) _ _ Hrun).
Defined.

(** Editing the document count sets no state hook. *)
Lemma X2_sample_count_edit :
  exists w',
    perform logs_render (Handler (DocumentRequestNumberChange "250")) logs_world
      = Some (tt, w') /\
    Hooks.hasInvalidRequestNumber (pending w')
      = Hooks.hasInvalidRequestNumber (pending logs_world) /\
    Hooks.showTooltips (pending w') = Hooks.showTooltips (pending logs_world) /\
    Hooks.indexPattern (pending w') = Hooks.indexPattern (pending logs_world).
Proof.
  assert (Hr : resolves logs_world (selectedLayerConfig logs_render) logs_layer logs_source)
    by (split; reflexivity).
  pose proof (@handle_run string logs_render (DocumentRequestNumberChange "250") logs_world
                logs_layer logs_source _ Hr eq_refl) as Hrun.
  eexists. split; [exact Hrun|].
  destruct (@X2_state_hooks_have_one_writer string logs_render
              (Handler (DocumentRequestNumberChange "250")) _ _ Hrun) as (H1 & H2 & H3).
  split; [apply H1; discriminate|].
  split; [apply H2; intros checked; discriminate|].
  apply H3; intros ?; discriminate.
Defined.

(** The configuration of the sample layer after its filters were updated. *)
Lemma X3_sample_filters_updated :
  exists w',
    perform logs_render (Handler (FiltersUpdated ["status:200"])) logs_world
      = Some (tt, w') /\
    heap w' !! 0 = Some (SourceObject logs_source) /\
    heap w' !! 1 = Some (LayerObject logs_layer).
Proof.
  assert (Hr : resolves logs_world (selectedLayerConfig logs_render) logs_layer logs_source)
    by (split; reflexivity).
  pose proof (@handle_run string logs_render (FiltersUpdated ["status:200"]) logs_world
                logs_layer logs_source _ Hr eq_refl) as Hrun.
  eexists. split; [exact Hrun|].
  split; apply (@X3_objects_are_never_rewritten string logs_render
                  (Handler (FiltersUpdated ["status:200"])) _ _ Hrun); reflexivity.
Defined.

(** The sample layer in a render of its own index pattern. *)
Lemma X4_sample_same_pattern :
  resolves logs_world (selectedLayerConfig logs_render) logs_layer logs_source /\
  (exists p, Hooks.indexPattern (state logs_render) = Some p /\
             IndexPattern.id p = Some (Source.indexPatternId logs_source)) /\
  exists w',
    indexPatternChangeEffect logs_render logs_world = Some (tt, w') /\
    calls w' = calls logs_world.
Proof.
  assert (Hr : resolves logs_world (selectedLayerConfig logs_render) logs_layer logs_source)
    by (split; reflexivity).
  assert (Hsame : exists p, Hooks.indexPattern (state logs_render) = Some p /\
                           IndexPattern.id p = Some (Source.indexPatternId logs_source))
    by (exists logs_pattern; split; reflexivity).
  split; [exact Hr|]. split; [exact Hsame|].
  destruct (@X4_no_change_no_emission string logs_render logs_world logs_layer
              logs_source Hr (or_intror Hsame))
    as (w' & Hrun & Hcalls & _).
  exists w'. split; [exact Hrun|exact Hcalls].
Defined.

(** An index pattern that has not been saved yet has no id. *)
Lemma X5_sample_unsaved_pattern :
  resolves logs_world
    (selectedLayerConfig
       (Build_Render 1 (Hooks.mk (Some (IndexPattern.mk None "unsaved-*" [])) false true)))
    logs_layer logs_source /\
  IndexPattern.id (IndexPattern.mk None "unsaved-*" []) = None /\
  exists w' l' c' s',
    indexPatternChangeEffect
      (Build_Render 1 (Hooks.mk (Some (IndexPattern.mk None "unsaved-*" [])) false true))
      logs_world = Some (tt, w') /\
    resolves w' l' c' s' /\
    Source.indexPatternId s' = "" /\
    Source.filters s' = Some [].
Proof.
  assert (Hr : resolves logs_world
                 (selectedLayerConfig
                    (Build_Render 1
                       (Hooks.mk (Some (IndexPattern.mk None "unsaved-*" [])) false true)))
                 logs_layer logs_source)
    by (split; reflexivity).
  split; [exact Hr|]. split; [reflexivity|].
  destruct (@X5_index_pattern_without_id string _ logs_world logs_layer logs_source
              (IndexPattern.mk None "unsaved-*" []) Hr eq_refl eq_refl)
    as (w' & l' & c' & s' & Hrun & _ & Hr' & _ & Hid & _ & Hfilters & _).
  exists w', l', c', s'. repeat split; try assumption; apply Hr'.
Defined.

(** After the filters of the sample layer were updated, the table holds an
    entry, under a non-empty id. *)
Lemma X6_sample_memorized_id :
  exists w' : @World string,
    reachable w' /\
    is_Some (memorizedForm w' !! "ip-1") /\
    forall k m, memorizedForm w' !! k = Some m -> k <> "".
Proof.
  assert (Hr : resolves logs_world (selectedLayerConfig logs_render) logs_layer logs_source)
    by (split; reflexivity).
  pose proof (@handle_run string logs_render (FiltersUpdated ["status:200"]) logs_world
                logs_layer logs_source _ Hr eq_refl) as Hrun.
  assert (Hreach : reachable
            (afterwards logs_render (FiltersUpdated ["status:200"])
               (emission (before (FiltersUpdated ["status:200"]) logs_world) logs_layer
                  (Source.set_filters (Some ["status:200"]) logs_source)))).
  { apply (reachable_step (w:=logs_world) logs_render
             (Handler (FiltersUpdated ["status:200"]))); [|exact Hrun].
    apply reachable_mounted. split; reflexivity. }
  eexists. split; [exact Hreach|]. split.
  - eexists. vm_compute. reflexivity.
  - exact (@X6_memorized_ids_are_not_empty string _ Hreach).
Defined.



(** Choosing a field on the sample layer memorizes it, with no filters. *)
Lemma X9_sample_field_without_filters :
  resolves logs_world (selectedLayerConfig logs_render) logs_layer logs_source /\
  exists w1,
    onGeoFieldChange logs_render (Some location_field) logs_world = Some (tt, w1) /\
    memorizedForm w1 !! "ip-1" = Some (Memo.mk None (Some location_field)).
Proof.
  assert (Hr : resolves logs_world (selectedLayerConfig logs_render) logs_layer logs_source)
    by (split; reflexivity).
  split; [exact Hr|].
  destruct (@X9_memorizing_keeps_the_other_half string logs_render logs_world
              logs_layer logs_source Hr) as [Hgeo _].
  destruct (Hgeo location_field) as (w1 & Hrun & Hsome & _).
  exists w1. split; [exact Hrun|].
  exact (proj1 (Hsome "ip-1" eq_refl)).
Defined.

(** Opening the sample layer memorizes its filters and its field. *)
Lemma X10_sample_opened :
  resolves logs_world (selectedLayerConfig logs_render) logs_layer logs_source /\
  exists w',
    memorizeEffect logs_render logs_world = Some (tt, w') /\
    memorizedForm w' !! "ip-1" = Some (Memo.mk (Some []) (Some location_field)) /\
    memorizeEffect logs_render w' = Some (tt, w').
Proof.
  assert (Hr : resolves logs_world (selectedLayerConfig logs_render) logs_layer logs_source)
    by (split; reflexivity).
  assert (Hnames : Source.indexPatternId logs_source ∉ objectPrototypeNames)
    by (intros Hin; cbn in Hin;
        repeat (apply elem_of_cons in Hin as [Hin|Hin]; [discriminate Hin|]);
        by apply elem_of_nil in Hin).
  split; [exact Hr|].
  destruct (@X10_memorization_never_overwrites string logs_render logs_world
              logs_layer logs_source Hr)
    as (w' & Hrun & _ & _ & _ & _ & _ & _ & _ & Hnew & Hagain).
  exists w'. split; [exact Hrun|]. split; [|exact Hagain].
  exact (Hnew eq_refl eq_refl Hnames eq_refl).
Defined.

(** From "ip-1" to "ip-2" and back on the sample layer. *)
Lemma X11_sample_back_and_forth :
  resolves logs_world (selectedLayerConfig logs_render) logs_layer logs_source /\
  Hooks.indexPattern (state logs_render) = Some logs_pattern /\
  IndexPattern.id logs_pattern = Some "ip-1" /\
  truthy "ip-1" = true /\
  Source.indexPatternId logs_source = "ip-1" /\
  memorizedForm logs_world !! "ip-1" = None /\
  ("ip-1" ∉ objectPrototypeNames) /\
  memorizedForm logs_world !! "__proto__" = None /\
  IndexPattern.id metrics_pattern = Some "ip-2" /\
  "ip-2" <> "ip-1" /\
  exists (w3 : @World string) l3 c3 s3,
    resolves w3 l3 c3 s3 /\
    Source.indexPatternId s3 = "ip-1" /\
    Source.filters s3 = Some [] /\
    Source.geoFieldName s3 = "location".
Proof.
  assert (Hr : resolves logs_world (selectedLayerConfig logs_render) logs_layer logs_source)
    by (split; reflexivity).
  assert (Hnames : "ip-1" ∉ objectPrototypeNames)
    by (intros Hin; cbn in Hin;
        repeat (apply elem_of_cons in Hin as [Hin|Hin]; [discriminate Hin|]);
        by apply elem_of_nil in Hin).
  assert (Hne : "ip-2" <> "ip-1") by discriminate.
  split; [exact Hr|]. do 5 (split; [reflexivity|]). split; [exact Hnames|].
  do 2 (split; [reflexivity|]). split; [exact Hne|].
  destruct (@X11_opened_selection_survives_a_round_trip string logs_render logs_world
              logs_layer logs_source logs_pattern metrics_pattern "ip-1" "ip-2"
              Hr eq_refl eq_refl eq_refl eq_refl eq_refl Hnames eq_refl eq_refl Hne)
    as (w1 & w2 & l2 & w3 & l3 & c3 & s3 & _ & _ & _ & _ & _ & Hr3 & _ & Hid & Hfilters & Hgeo).
  exists w3, l3, c3, s3. split; [exact Hr3|]. split; [exact Hid|].
  split; [exact Hfilters|].
  exact (proj1 (Hgeo location_field eq_refl)).
Defined.

(** The selected field of the sample layer. *)
Lemma X12_sample_selected_field :
  resolves logs_world (selectedLayerConfig logs_render) logs_layer logs_source /\
  exists selected,
    selectedField logs_render logs_world = Some (selected, logs_world) /\
    selected <> None.
Proof.
  assert (Hr : resolves logs_world (selectedLayerConfig logs_render) logs_layer logs_source)
    by (split; reflexivity).
  split; [exact Hr|].
  destruct (@X12_selected_field_is_a_geo_field string logs_render logs_world
              logs_layer logs_source Hr) as (selected & Hrun & _ & Hnone).
  exists selected. split; [exact Hrun|].
  intros Hsel. apply (proj1 Hnone Hsel logs_pattern location_field eq_refl).
  - right. left.
  - left. reflexivity.
  - reflexivity.
Defined.

(** Re-selecting the tooltip field of the sample layer. *)
Lemma X14_sample_tooltips :
  resolves logs_world (selectedLayerConfig logs_render) logs_layer logs_source /\
  exists w' l' c' s',
    onTooltipSelectionChange logs_render
      (formatTooltipFieldsToComboBox (Source.tooltipFields logs_source)) logs_world
      = Some (tt, w') /\
    resolves w' l' c' s' /\
    Source.tooltipFields s' = Some ["status"].
Proof.
  assert (Hr : resolves logs_world (selectedLayerConfig logs_render) logs_layer logs_source)
    by (split; reflexivity).
  split; [exact Hr|].
  destruct (@X14_tooltip_selection_round_trip string logs_render logs_world
              logs_layer logs_source Hr) as [_ (w' & l' & c' & s' & Hrun & Hr' & Hfields)].
  exists w', l', c', s'. split; [exact Hrun|]. split; [exact Hr'|exact Hfields].
Defined.

(** Clearing the combo box of geospatial fields of the sample layer. *)
Lemma X15_sample_cleared_combo :
  resolves logs_world (selectedLayerConfig logs_render) logs_layer logs_source /\
  forall getFieldByName,
    onGeoFieldComboChange getFieldByName logs_render [] logs_world = None.
Proof.
  assert (Hr : resolves logs_world (selectedLayerConfig logs_render) logs_layer logs_source)
    by (split; reflexivity).
  split; [exact Hr|]. intros getFieldByName.
  destruct (@X15_geo_field_combo_change string getFieldByName logs_render logs_world
              logs_layer logs_source Hr) as [Hcleared _].
  exact (Hcleared logs_pattern eq_refl).
Defined.

(** Typing 0 into the document count of the sample layer. *)
Lemma X16_sample_zero_is_flagged :
  resolves logs_world (selectedLayerConfig logs_render) logs_layer logs_source /\
  (exists z, parseInt "0" = of_Z z /\ (- 2 ^ 53 <= z <= 2 ^ 53)%Z) /\
  exists w1 l' w2,
    onDocumentRequestNumberChange logs_render "0" logs_world = Some (tt, w1) /\
    validateEffect (Build_Render l' logs_hooks) w1 = Some (tt, w2) /\
    Hooks.hasInvalidRequestNumber (pending w2) = true.
Proof.
  assert (Hr : resolves logs_world (selectedLayerConfig logs_render) logs_layer logs_source)
    by (split; reflexivity).
  assert (Hsafe : exists z, parseInt "0" = of_Z z /\ (- 2 ^ 53 <= z <= 2 ^ 53)%Z)
    by (exists 0%Z; split; [reflexivity|lia]).
  split; [exact Hr|]. split; [exact Hsafe|].
  destruct (@X16_typed_count_is_flagged_when_out_of_range string logs_render "0" logs_world
              logs_layer logs_source Hr (or_intror Hsafe))
    as (w1 & l' & c' & s' & Hrun & _ & _ & _ & Hflag).
  destruct (Hflag logs_hooks) as (w2 & Hrun2 & Hiff).
  exists w1, l', w2. split; [exact Hrun|]. split; [exact Hrun2|].
  apply Hiff. exists 0%Z. split; [reflexivity|left; reflexivity].
Defined.

(** The groups of the fields of "ip-1": number before geo_point. *)
Lemma X17_sample_group_order :
  (forall field, field ∈ IndexPattern.fields logs_pattern ->
     array_index (IndexPatternField.type field) = None) /\
  0 < 1 /\
  tooltipFieldsOptions (Some logs_pattern) !! 0
    = Some (OptionGroup.mk "number" [ComboOption.mk "status"]) /\
  tooltipFieldsOptions (Some logs_pattern) !! 1
    = Some (OptionGroup.mk "geo_point" [ComboOption.mk "location"]) /\
  exists n field,
    IndexPattern.fields logs_pattern !! n = Some field /\
    IndexPatternField.type field = "number".
Proof.
  assert (Hnamed : forall field, field ∈ IndexPattern.fields logs_pattern ->
                     array_index (IndexPatternField.type field) = None).
  { intros field Hin. cbn in Hin.
    apply elem_of_cons in Hin as [->|Hin]; [reflexivity|].
    apply elem_of_cons in Hin as [->|Hin]; [reflexivity|].
    by apply elem_of_nil in Hin. }
  split; [exact Hnamed|]. split; [lia|]. split; [reflexivity|]. split; [reflexivity|].
  destruct (@X17_tooltip_groups_in_order_of_first_occurrence logs_pattern 0 1
              (OptionGroup.mk "number" [ComboOption.mk "status"])
              (OptionGroup.mk "geo_point" [ComboOption.mk "location"])
              Hnamed ltac:(lia) eq_refl eq_refl)
    as (n & field & Hn & Htype & _).
  exists n, field. split; [exact Hn|exact Htype].
Defined.

(** Choosing the field "location" of the sample layer. *)
Lemma X18_sample_location_chosen :
  resolves logs_world (selectedLayerConfig logs_render) logs_layer logs_source /\
  Hooks.indexPattern (state logs_render) = Some logs_pattern /\
  geoFields (Some logs_pattern) = Some [location_field] /\
  location_field ∈ [location_field] /\
  IndexPatternField.displayName location_field = IndexPatternField.name location_field /\
  exists w' l',
    onGeoFieldChange logs_render (Some location_field) logs_world = Some (tt, w') /\
    selectedField (rerender logs_render l') w' = Some (Some location_field, w').
Proof.
  assert (Hr : resolves logs_world (selectedLayerConfig logs_render) logs_layer logs_source)
    by (split; reflexivity).
  assert (Hin : location_field ∈ [location_field]) by left.
  assert (Huniq : forall other, other ∈ [location_field] ->
            IndexPatternField.name other = IndexPatternField.name location_field ->
            other = location_field).
  { intros other Hother _. apply elem_of_cons in Hother as [->|Hother]; [reflexivity|].
    by apply elem_of_nil in Hother. }
  split; [exact Hr|]. do 2 (split; [reflexivity|]). split; [exact Hin|].
  split; [reflexivity|].
  destruct (@X18_selection_comes_back_when_names_agree string logs_render logs_world
              logs_layer logs_source logs_pattern [location_field] location_field
              Hr eq_refl eq_refl Hin eq_refl Huniq)
    as (w' & l' & Hrun & _ & Hsel).
  exists w', l'. split; [exact Hrun|exact Hsel].
Defined.

(** Choosing the field "location" enables the update of the sample layer. *)
Lemma X19_sample_update_enabled :
  resolves logs_world (selectedLayerConfig logs_render) logs_layer logs_source /\
  Hooks.hasInvalidRequestNumber (state logs_render) = false /\
  exists w1 l' w2,
    onGeoFieldChange logs_render (Some location_field) logs_world = Some (tt, w1) /\
    updateDisabledEffect (rerender logs_render l') w1 = Some (tt, w2) /\
    calls w2 = calls w1 ++ [setIsUpdateDisabled false].
Proof.
  assert (Hr : resolves logs_world (selectedLayerConfig logs_render) logs_layer logs_source)
    by (split; reflexivity).
  assert (Hin : location_field ∈ [location_field]) by left.
  assert (Huniq : forall other, other ∈ [location_field] ->
            IndexPatternField.name other = IndexPatternField.name location_field ->
            other = location_field).
  { intros other Hother _. apply elem_of_cons in Hother as [->|Hother]; [reflexivity|].
    by apply elem_of_nil in Hother. }
  split; [exact Hr|]. split; [reflexivity|].
  destruct (@X19_choosing_a_field_enables_the_update string logs_render logs_world
              logs_layer logs_source logs_pattern [location_field] location_field
              Hr eq_refl eq_refl Hin eq_refl Huniq eq_refl)
    as (w1 & l' & w2 & Hrun & _ & Hrun2 & Hcalls).
  exists w1, l', w2. split; [exact Hrun|]. split; [exact Hrun2|exact Hcalls].
Defined.


